(** * cheat-code: the sequence detector of the <cheat-code> element

    A shallow embedding of [src/cheat-code.js]: the element's fields, the
    part of the browser it talks to (clock, event listeners, interval timers,
    animation frames, the gamepad snapshot, the console), and its methods as
    functions on that state.  Rendering ([confetti(...)]) is left out. *)

From stdpp Require Import gmap strings list sorting pretty.
From Stdlib Require Import ZArith Lia.

(** ** JavaScript values and numbers *)

(** What [this.lastEntryTime] can hold: a number of milliseconds, or
    [undefined]. *)
Inductive JsValue :=
| JsNumber (z : Z)
| JsUndefined.

(** The result of a numeric operation: an integer or [NaN]. *)
Inductive JsNum :=
| Finite (z : Z)
| NaN.

Definition toNumber (v : JsValue) : JsNum :=
  match v with
  | JsNumber z => Finite z
  | JsUndefined => NaN
  end.

(** [a - b] *)
Definition js_sub (a b : JsNum) : JsNum :=
  match a, b with
  | Finite x, Finite y => Finite (x - y)
  | _, _ => NaN
  end.

(** [a > b]: every comparison with [NaN] is false. *)
Definition js_gt (a b : JsNum) : bool :=
  match a, b with
  | Finite x, Finite y => (y <? x)%Z
  | _, _ => false
  end.

(** Truthiness of a string-or-undefined value such as [event.key]. *)
Definition truthy (v : option string) : bool :=
  match v with
  | Some (String _ _) => true
  | _ => false
  end.

(** Truthiness of a possibly missing boolean property ([obj[k]]). *)
Definition truthyFlag (v : option bool) : bool :=
  match v with
  | Some true => true
  | _ => false
  end.

(** ** Symbols and their serialisation *)

(** An entry of [this.entries]: a key name (keyboard) or a button index
    (gamepad). *)
Inductive Symbol :=
| Key (k : string)
| Button (id : nat).

(** [String(x)], as [Array.prototype.join] applies it to each element. *)
Definition toString (s : Symbol) : string :=
  match s with
  | Key k => k
  | Button id => pretty id
  end.

(** [Array.prototype.join] *)
Fixpoint join (sep : string) (l : list string) : string :=
  match l with
  | [] => ""
  | x :: l' =>
      match l' with
      | [] => x
      | _ :: _ => x +:+ sep +:+ join sep l'
      end
  end.

(** ** Events and devices *)

(** A [Gamepad] of [navigator.getGamepads()]; [buttons] holds the [pressed]
    flag of each button. *)
Record Gamepad := mkGamepad {
  index : nat;
  buttons : list bool
}.

Record KeyboardEvent := mkKeyboardEvent { key : option string }.
Record GamepadEvent := mkGamepadEvent { gamepad : option Gamepad }.

(** ** The element *)

(** The fields the detector uses; [timeLimit] is in milliseconds and
    [duration] in seconds, both taken as integers. *)
Record CheatCode := mkCheatCode {
  pattern : string;
  type : string;
  timeLimit : Z;
  duration : Z;
  gamepads : gmap nat bool;
  buttonState : gmap nat bool;
  entries : list Symbol;
  lastEntryTime : JsValue;
  timer : nat
}.

(** ** The browser around it *)

(** The three handlers bound in the constructor are the only callbacks the
    element ever registers, each for one event name, and
    [addEventListener] ignores a callback that is already registered: one
    flag per registration. *)
Record Listeners := mkListeners {
  keydown : bool;               (* document: "keydown" -> keyboardInit *)
  gamepadconnected : bool;      (* window: "gamepadconnected" -> gamepadConnected *)
  gamepaddisconnected : bool    (* window: "gamepaddisconnected" -> gamepadDisconnected *)
}.

Record Host := mkHost {
  now : Z;                                  (* Date.now() *)
  getGamepads : list (option Gamepad);      (* navigator.getGamepads() *)
  listeners : Listeners;
  intervals : gmap nat (Z * Z);             (* live setInterval callbacks:
                                               handle -> (duration, animationEnd) *)
  nextHandle : nat;                         (* next handle setInterval returns *)
  frames : nat;                             (* pending requestAnimationFrame callbacks *)
  console : list nat;                       (* ids logged by "Button Pressed!" *)
  reactions : list Z;                       (* times at which loadConfetti was called *)
  uncaught : nat                            (* exceptions reported by the browser *)
}.

Record World := mkWorld {
  this : CheatCode;
  host : Host
}.

Definition updThis (f : CheatCode → CheatCode) (w : World) : World :=
  mkWorld (f (this w)) (host w).
Definition updHost (f : Host → Host) (w : World) : World :=
  mkWorld (this w) (f (host w)).

Definition set_pattern (v : string) (c : CheatCode) : CheatCode :=
  mkCheatCode v (type c) (timeLimit c) (duration c) (gamepads c)
    (buttonState c) (entries c) (lastEntryTime c) (timer c).
Definition set_type (v : string) (c : CheatCode) : CheatCode :=
  mkCheatCode (pattern c) v (timeLimit c) (duration c) (gamepads c)
    (buttonState c) (entries c) (lastEntryTime c) (timer c).
Definition set_timeLimit (v : Z) (c : CheatCode) : CheatCode :=
  mkCheatCode (pattern c) (type c) v (duration c) (gamepads c)
    (buttonState c) (entries c) (lastEntryTime c) (timer c).
Definition set_duration (v : Z) (c : CheatCode) : CheatCode :=
  mkCheatCode (pattern c) (type c) (timeLimit c) v (gamepads c)
    (buttonState c) (entries c) (lastEntryTime c) (timer c).
Definition set_gamepads (v : gmap nat bool) (c : CheatCode) : CheatCode :=
  mkCheatCode (pattern c) (type c) (timeLimit c) (duration c) v
    (buttonState c) (entries c) (lastEntryTime c) (timer c).
Definition set_buttonState (v : gmap nat bool) (c : CheatCode) : CheatCode :=
  mkCheatCode (pattern c) (type c) (timeLimit c) (duration c) (gamepads c)
    v (entries c) (lastEntryTime c) (timer c).
Definition set_entries (v : list Symbol) (c : CheatCode) : CheatCode :=
  mkCheatCode (pattern c) (type c) (timeLimit c) (duration c) (gamepads c)
    (buttonState c) v (lastEntryTime c) (timer c).
Definition set_lastEntryTime (v : JsValue) (c : CheatCode) : CheatCode :=
  mkCheatCode (pattern c) (type c) (timeLimit c) (duration c) (gamepads c)
    (buttonState c) (entries c) v (timer c).
Definition set_timer (v : nat) (c : CheatCode) : CheatCode :=
  mkCheatCode (pattern c) (type c) (timeLimit c) (duration c) (gamepads c)
    (buttonState c) (entries c) (lastEntryTime c) v.

Definition set_now (v : Z) (h : Host) : Host :=
  mkHost v (getGamepads h) (listeners h) (intervals h) (nextHandle h)
    (frames h) (console h) (reactions h) (uncaught h).
Definition set_getGamepads (v : list (option Gamepad)) (h : Host) : Host :=
  mkHost (now h) v (listeners h) (intervals h) (nextHandle h)
    (frames h) (console h) (reactions h) (uncaught h).
Definition set_listeners (v : Listeners) (h : Host) : Host :=
  mkHost (now h) (getGamepads h) v (intervals h) (nextHandle h)
    (frames h) (console h) (reactions h) (uncaught h).
Definition set_intervals (v : gmap nat (Z * Z)) (h : Host) : Host :=
  mkHost (now h) (getGamepads h) (listeners h) v (nextHandle h)
    (frames h) (console h) (reactions h) (uncaught h).
Definition set_nextHandle (v : nat) (h : Host) : Host :=
  mkHost (now h) (getGamepads h) (listeners h) (intervals h) v
    (frames h) (console h) (reactions h) (uncaught h).
Definition set_frames (v : nat) (h : Host) : Host :=
  mkHost (now h) (getGamepads h) (listeners h) (intervals h) (nextHandle h)
    v (console h) (reactions h) (uncaught h).
Definition set_console (v : list nat) (h : Host) : Host :=
  mkHost (now h) (getGamepads h) (listeners h) (intervals h) (nextHandle h)
    (frames h) v (reactions h) (uncaught h).
Definition set_reactions (v : list Z) (h : Host) : Host :=
  mkHost (now h) (getGamepads h) (listeners h) (intervals h) (nextHandle h)
    (frames h) (console h) v (uncaught h).
Definition set_uncaught (v : nat) (h : Host) : Host :=
  mkHost (now h) (getGamepads h) (listeners h) (intervals h) (nextHandle h)
    (frames h) (console h) (reactions h) v.

(** ** Methods of the class *)

(** [static patternMatcher(pattern)] *)
Definition patternMatcher (pattern : string) : string :=
  if String.eqb pattern "starpower" then "7 1 7 0 7 2 7 3 6"
  else if String.eqb pattern "konamicode" then
    "ArrowUp ArrowUp ArrowDown ArrowDown ArrowLeft ArrowRight ArrowLeft ArrowRight b a Enter"
  else pattern.

(** The constructor, run at time [t]. *)
Definition constructor (t : Z) : CheatCode :=
  {| pattern := patternMatcher "konamicode";
     type := "keyboard";
     timeLimit := 1000;
     duration := 10;
     gamepads := ∅;
     buttonState := ∅;
     entries := [];
     lastEntryTime := JsNumber t;
     timer := 0 |}.

(** A page at time [t] holding a freshly constructed element: nothing is
    registered or scheduled yet. *)
Definition newHost (t : Z) : Host :=
  {| now := t;
     getGamepads := [];
     listeners := mkListeners false false false;
     intervals := ∅;
     nextHandle := 1;
     frames := 0;
     console := [];
     reactions := [];
     uncaught := 0 |}.

Definition newWorld (t : Z) : World := mkWorld (constructor t) (newHost t).

(** [get currentCode()] *)
Definition currentCode (w : World) : string :=
  join " " (toString <$> entries (this w)).

(** [get connectedGamepads()] *)
Definition connectedGamepads (w : World) : list (option Gamepad) :=
  getGamepads (host w).

(** [get gamepadIndexes()]: [Object.keys] lists integer keys in ascending
    order, as strings. *)
Definition gamepadIndexes (w : World) : list string :=
  pretty <$> merge_sort Nat.le (fst <$> map_to_list (gamepads (this w))).

(** [checkTime()] *)
Definition checkTime (w : World) : World :=
  if js_gt (js_sub (Finite (now (host w))) (toNumber (lastEntryTime (this w))))
           (Finite (timeLimit (this w)))
  then updThis (set_entries []) w
  else w.

(** [loadConfetti()]: [window.setInterval] hands out a fresh handle and keeps
    the closure [() => this.fireConfetti(duration, animationEnd)]. *)
Definition loadConfetti (w : World) : World :=
  let duration := (duration (this w) * 1000)%Z in
  let animationEnd := (now (host w) + duration)%Z in
  let handle := nextHandle (host w) in
  let w := updHost (λ h, set_reactions (reactions h ++ [now h]) h) w in
  let w := updHost (λ h, set_nextHandle (S handle)
             (set_intervals (<[handle := (duration, animationEnd)]> (intervals h)) h)) w in
  updThis (set_timer handle) w.

(** [checkCode(event)] *)
Definition checkCode (event : KeyboardEvent) (w : World) : World :=
  match key event with
  | Some k =>
      if truthy (Some k) then
        let w := updThis (λ c, set_entries (entries c ++ [Key k]) c) w in
        let w := updThis (set_lastEntryTime (JsNumber (now (host w)))) w in
        if String.eqb (currentCode w) (pattern (this w)) then loadConfetti w
        else w
      else w
  | None => w
  end.

(** [this.now]: no statement of the class assigns a [now] property, so the
    read yields [undefined]. *)
Definition this_now (w : World) : JsValue := JsUndefined.

(** [buttonPressed(id)] *)
Definition buttonPressed (id : nat) (w : World) : World :=
  let w := updHost (λ h, set_console (console h ++ [id]) h) w in
  let w := checkTime w in
  let w := updThis (λ c, set_entries (entries c ++ [Button id]) c) w in
  let w := updThis (set_lastEntryTime (this_now w)) w in
  if String.eqb (currentCode w) (pattern (this w)) then loadConfetti w
  else w.

(** [array.forEach((x, index) => ...)], the callback threading the world. *)
Fixpoint forEachFrom {A} (f : A → nat → World → World)
    (i : nat) (l : list A) (w : World) : World :=
  match l with
  | [] => w
  | x :: l' => forEachFrom f (S i) l' (f x i w)
  end.

Definition forEach {A} (f : A → nat → World → World) (l : list A) (w : World)
    : World :=
  forEachFrom f 0 l w.

(** The callback of [buttons.forEach] in [readGamepadValues]: the edge state
    is indexed by the button's position alone. *)
Definition sampleButton (pressed : bool) (index : nat) (w : World) : World :=
  if pressed then
    if negb (truthyFlag (buttonState (this w) !! index)) then
      buttonPressed index
        (updThis (λ c, set_buttonState (<[index := true]> (buttonState c)) c) w)
    else w
  else updThis (λ c, set_buttonState (delete index (buttonState c)) c) w.

(** The callback of [this.gamepadIndexes.forEach]: [item] is the key,
    [index] its position in the array of keys; the snapshot is read at that
    position.  Of the three tests of the guard, [!this.connectedGamepads]
    never holds: the snapshot is an array. *)
Definition sampleGamepad (item : string) (index : nat) (w : World) : World :=
  if negb (truthy (Some item)) then w
  else
    match connectedGamepads w !! index with
    | Some (Some pad) => forEach sampleButton (buttons pad) w
    | _ => w
    end.

(** The value of [this] inside a call of a method. *)
Inductive Receiver :=
| Element
| Undefined.

(** [window.requestAnimationFrame(this.readGamepadValues)]: the method is
    handed over as a plain function. *)
Definition requestAnimationFrame (w : World) : World :=
  updHost (λ h, set_frames (S (frames h)) h) w.

(** An exception that nothing catches. *)
Definition throwTypeError (w : World) : World :=
  updHost (λ h, set_uncaught (S (uncaught h)) h) w.

(** [readGamepadValues()].  Called as [this.readGamepadValues()] the
    receiver is the element; called back as a plain function from a strict
    class body the receiver is [undefined], and [this.gamepadIndexes]
    throws. *)
Definition readGamepadValues (receiver : Receiver) (w : World) : World :=
  match receiver with
  | Undefined => throwTypeError w
  | Element =>
      let w := forEach sampleGamepad (gamepadIndexes w) w in
      if (0 <? length (gamepadIndexes w))%nat then requestAnimationFrame w
      else w
  end.

(** [gamepadConnected(event)] *)
Definition gamepadConnected (event : GamepadEvent) (w : World) : World :=
  match gamepad event with
  | Some pad =>
      let w := updThis (λ c, set_gamepads (<[index pad := true]> (gamepads c)) c) w in
      readGamepadValues Element w
  | None => w
  end.

(** [gamepadDisconnected(event)] *)
Definition gamepadDisconnected (event : GamepadEvent) (w : World) : World :=
  match gamepad event with
  | Some pad =>
      updThis (λ c, set_gamepads (delete (index pad) (gamepads c)) c) w
  | None => w
  end.

(** [keyboardInit(keyEvent)] *)
Definition keyboardInit (keyEvent : KeyboardEvent) (w : World) : World :=
  checkCode keyEvent (checkTime w).

(** [listen()] *)
Definition listen (w : World) : World :=
  if String.eqb (type (this w)) "gamepad" then
    updHost (λ h, set_listeners
      (mkListeners (keydown (listeners h)) true true) h) w
  else
    updHost (λ h, set_listeners
      (mkListeners true (gamepadconnected (listeners h))
         (gamepaddisconnected (listeners h))) h) w.

(** [destroy()] *)
Definition destroy (w : World) : World :=
  if String.eqb (type (this w)) "gamepad" then
    updHost (λ h, set_listeners
      (mkListeners (keydown (listeners h)) false false) h) w
  else
    updHost (λ h, set_listeners
      (mkListeners false (gamepadconnected (listeners h))
         (gamepaddisconnected (listeners h))) h) w.

(** [clearInterval(handle)] *)
Definition clearInterval (handle : nat) (w : World) : World :=
  updHost (λ h, set_intervals (delete handle (intervals h)) h) w.

(** [fireConfetti(duration, end)], up to the two [confetti(...)] calls. *)
Definition fireConfetti (duration end_ : Z) (w : World) : World :=
  let timeLeft := (end_ - now (host w))%Z in
  if (timeLeft <=? 0)%Z then destroy (clearInterval (timer (this w)) w)
  else w.

(** [connectedCallback()] and [disconnectedCallback()] *)
Definition connectedCallback (w : World) : World := listen w.
Definition disconnectedCallback (w : World) : World := destroy w.

(** ** The event loop *)

(** What can happen to the page.  A handler runs to completion within one
    reading of the clock: time only moves between events. *)
Inductive Event :=
| Clock (t : Z)                            (* time passes: Date.now() is now t *)
| Pads (snapshot : list (option Gamepad))  (* the devices change state *)
| Keydown (e : KeyboardEvent)
| Gamepadconnected (e : GamepadEvent)
| Gamepaddisconnected (e : GamepadEvent)
| Interval (handle : nat)                  (* a setInterval callback is due *)
| AnimationFrame.                          (* the frame callbacks are run *)

(** Running the callbacks that were pending when the frame began. *)
Fixpoint runFrames (n : nat) (w : World) : World :=
  match n with
  | O => w
  | S n' => runFrames n' (readGamepadValues Undefined w)
  end.

Definition step (w : World) (ev : Event) : World :=
  match ev with
  | Clock t => updHost (set_now t) w
  | Pads snapshot => updHost (set_getGamepads snapshot) w
  | Keydown e =>
      if keydown (listeners (host w)) then keyboardInit e w else w
  | Gamepadconnected e =>
      if gamepadconnected (listeners (host w)) then gamepadConnected e w else w
  | Gamepaddisconnected e =>
      if gamepaddisconnected (listeners (host w)) then gamepadDisconnected e w
      else w
  | Interval handle =>
      match intervals (host w) !! handle with
      | Some (duration, end_) => fireConfetti duration end_ w
      | None => w
      end
  | AnimationFrame =>
      runFrames (frames (host w)) (updHost (set_frames 0) w)
  end.

Definition run (evs : list Event) (w : World) : World := fold_left step evs w.

(** ** Vocabulary of the statements *)

(** No listener is registered. *)
Definition idle (w : World) : Prop :=
  listeners (host w) = mkListeners false false false.

(** The key [k] goes down at time [t]. *)
Definition typeKey (tk : Z * string) : list Event :=
  [Clock tk.1; Keydown (mkKeyboardEvent (Some tk.2))].

(** What a listening detector does with it. *)
Definition press (t : Z) (k : string) (w : World) : World :=
  keyboardInit (mkKeyboardEvent (Some k)) (updHost (set_now t) w).

(** A sequence of timed key presses, as the events the page sees. *)
Definition typeKeys (S : list (Z * string)) : list Event :=
  S ≫= typeKey.

(** Every gap between consecutive times is at most [T]. *)
Fixpoint paced (T : Z) (ts : list Z) : Prop :=
  match ts with
  | [] => True
  | t1 :: ts' =>
      match ts' with
      | [] => True
      | t2 :: _ => (t2 - t1 ≤ T)%Z ∧ paced T ts'
      end
  end.

(** At time [t] the buffer is empty, or stale: the last entry is more than
    [timeLimit] old, so the next symbol starts it afresh. *)
Definition startsFresh (w : World) (t : Z) : Prop :=
  entries (this w) = []
  ∨ ∃ tl, lastEntryTime (this w) = JsNumber tl
          ∧ (timeLimit (this w) < t - tl)%Z.

(** The times at which typing [S] on top of the buffered keys [pre] makes the
    serialised buffer equal to [pat]. *)
Fixpoint matchTimes (pat : string) (pre : list string) (S : list (Z * string))
    : list Z :=
  match S with
  | [] => []
  | (t, k) :: S' =>
      (if String.eqb (join " " (pre ++ [k])) pat then [t] else [])
      ++ matchTimes pat (pre ++ [k]) S'
  end.

(** The number of symbols emitted so far for button [b]: [buttonPressed]
    logs each one on the console. *)
Definition presses (b : nat) (w : World) : nat :=
  count_occ Nat.eq_dec (console (host w)) b.

(** The edge state of button [b]. *)
Definition held (b : nat) (w : World) : bool :=
  truthyFlag (buttonState (this w) !! b).

(** One sampling pass, the devices being in the state [snapshot]. *)
Definition pass (snapshot : list (option Gamepad)) (w : World) : World :=
  readGamepadValues Element (updHost (set_getGamepads snapshot) w).

Definition passes (snapshots : list (list (option Gamepad))) (w : World)
    : World :=
  fold_left (λ w snapshot, pass snapshot w) snapshots w.

(** The state of button [b] of the device in the first slot of a snapshot. *)
Definition slot0 (snapshot : list (option Gamepad)) (b : nat) : option bool :=
  match snapshot !! 0 with
  | Some (Some pad) => buttons pad !! b
  | _ => None
  end.

(** ** Scenarios *)

(** An element configured through its attributes and attached to the page
    at time [t]. *)
Definition detector (type pattern : string) (t : Z) : World :=
  connectedCallback
    (updThis (λ c, set_pattern (patternMatcher pattern) (set_type type c))
       (newWorld t)).

(** A pad with [n] buttons, those listed in [down] being pressed. *)
Definition padWith (index n : nat) (down : list nat) : Gamepad :=
  mkGamepad index ((λ b, bool_decide (b ∈ down)) <$> seq 0 n).

Definition connects (pad : Gamepad) : Event :=
  Gamepadconnected (mkGamepadEvent (Some pad)).
Definition disconnects (pad : Gamepad) : Event :=
  Gamepaddisconnected (mkGamepadEvent (Some pad)).

(** ** Further vocabulary *)

(** The configuration of the element: what the attributes set. *)
Definition config (c : CheatCode) : string * string * Z * Z :=
  (pattern c, type c, timeLimit c, duration c).

(** [w'] has the configuration of [w] and, when the pattern of [w] is
    empty, its reactions. *)
Definition quiet (w w' : World) : Prop :=
  config (this w') = config (this w)
  ∧ (pattern (this w) = "" → reactions (host w') = reactions (host w)).

(** Button [tb.2] is reported to [buttonPressed] at time [tb.1]. *)
Definition pressButton (w : World) (tb : Z * nat) : World :=
  buttonPressed tb.2 (updHost (set_now tb.1) w).

Definition pressButtons (l : list (Z * nat)) (w : World) : World :=
  fold_left pressButton l w.

(** The buttons of [bs], numbered from [i], that are down and not flagged:
    the rising edges, in ascending order. *)
Fixpoint rising (flagged : nat → bool) (i : nat) (bs : list bool) : list nat :=
  match bs with
  | [] => []
  | p :: bs' =>
      (if p && negb (flagged i) then [i] else []) ++ rising flagged (S i) bs'
  end.







(** * Properties *)

#[local] Arguments String.eqb : simpl never.

(** ** Frame lemmas: what each method leaves alone *)

Lemma checkTime_host (w : World) : host (checkTime w) = host w.
Proof. unfold checkTime. by destruct (js_gt _ _). Qed.

Lemma checkTime_entries (w : World) :
  entries (this (checkTime w)) = entries (this w)
  ∨ entries (this (checkTime w)) = [].
Proof. unfold checkTime. destruct (js_gt _ _); auto. Qed.

Lemma checkTime_lastEntryTime (w : World) :
  lastEntryTime (this (checkTime w)) = lastEntryTime (this w).
Proof. unfold checkTime. by destruct (js_gt _ _). Qed.

Lemma checkCode_falsy (e : KeyboardEvent) (w : World) :
  truthy (key e) = false → checkCode e w = w.
Proof.
  unfold checkCode. intros Hk. destruct (key e) as [k|]; [|done].
  by rewrite Hk.
Qed.

Lemma loadConfetti_listeners (w : World) :
  listeners (host (loadConfetti w)) = listeners (host w).
Proof. done. Qed.

Lemma checkCode_listeners (e : KeyboardEvent) (w : World) :
  listeners (host (checkCode e w)) = listeners (host w).
Proof.
  unfold checkCode. destruct (key e) as [k|]; [|done].
  destruct (truthy _); [|done]. by destruct (String.eqb _ _).
Qed.

Lemma keyboardInit_listeners (e : KeyboardEvent) (w : World) :
  listeners (host (keyboardInit e w)) = listeners (host w).
Proof.
  unfold keyboardInit. by rewrite checkCode_listeners, checkTime_host.
Qed.

(** ** Preset resolution *)

(** C5: [patternMatcher] is total; it maps "starpower" and "konamicode" to
    their fixed patterns and returns every other string unchanged. *)
Theorem patternMatcher_presets :
  patternMatcher "starpower" = "7 1 7 0 7 2 7 3 6"
  ∧ patternMatcher "konamicode"
    = "ArrowUp ArrowUp ArrowDown ArrowDown ArrowLeft ArrowRight ArrowLeft ArrowRight b a Enter"
  ∧ ∀ s : string,
      s ≠ "starpower" → s ≠ "konamicode" → patternMatcher s = s.
Proof.
  split; [done|]. split; [done|].
  intros s Hs Hk. unfold patternMatcher.
  destruct (String.eqb_spec s "starpower") as [->|_]; [done|].
  by destruct (String.eqb_spec s "konamicode") as [->|_].
Qed.

Lemma patternMatcher_presets_witness :
  "unknown-xyz" ≠ "starpower" ∧ "unknown-xyz" ≠ "konamicode"
  ∧ patternMatcher "unknown-xyz" = "unknown-xyz".
Proof.
  split; [discriminate|]. split; [discriminate|].
  apply (proj2 (proj2 patternMatcher_presets) "unknown-xyz"); discriminate.
Defined.

(** ** Stopping *)

(** C8: [destroy()] is idempotent, and on a detector that is not listening
    (never started, or already stopped) it changes nothing and reports no
    error. *)
Theorem destroy_idempotent (w : World) :
  destroy (destroy w) = destroy w
  ∧ uncaught (host (destroy w)) = uncaught (host w)
  ∧ (idle w → destroy w = w).
Proof.
  destruct w as [c [t g [k gc gd] iv nh fr co re un]].
  unfold destroy, idle, updHost; simpl.
  destruct (String.eqb (type c) "gamepad") eqn:Ety; simpl; rewrite Ety; simpl.
  - split; [done|]. split; [done|]. by intros [= -> -> ->].
  - split; [done|]. split; [done|]. by intros [= -> -> ->].
Qed.

Lemma destroy_idempotent_witness :
  idle (newWorld 0) ∧ destroy (newWorld 0) = newWorld 0.
Proof.
  split; [reflexivity|].
  apply (proj2 (proj2 (destroy_idempotent (newWorld 0)))). reflexivity.
Defined.

(** ** Key events without a key *)

(** C9: a key-down notification whose [key] is absent or falsy appends no
    symbol, leaves the last-entry time alone, triggers no reaction and raises
    no error; [checkCode] itself does nothing at all. *)
Theorem falsy_key_ignored (e : KeyboardEvent) (w : World) :
  truthy (key e) = false →
  checkCode e w = w
  ∧ (entries (this (step w (Keydown e))) = entries (this w)
     ∨ entries (this (step w (Keydown e))) = [])
  ∧ lastEntryTime (this (step w (Keydown e))) = lastEntryTime (this w)
  ∧ host (step w (Keydown e)) = host w.
Proof.
  intros Hk. split; [by apply checkCode_falsy|].
  simpl. destruct (keydown _); [|by auto].
  unfold keyboardInit. rewrite checkCode_falsy by done.
  split; [apply checkTime_entries|].
  split; [apply checkTime_lastEntryTime|apply checkTime_host].
Qed.

Lemma falsy_key_ignored_witness :
  let e := mkKeyboardEvent None in
  let w := listen (newWorld 0) in
  truthy (key e) = false
  ∧ entries (this (step w (Keydown e))) = []
  ∧ reactions (host (step w (Keydown e))) = [].
Proof.
  intros e w. split; [reflexivity|].
  destruct (falsy_key_ignored e w eq_refl) as (_ & _ & _ & Hh).
  split; [reflexivity|]. by rewrite Hh.
Defined.

(** C10: a key-down notification with a falsy [key] still runs the timeout
    check: when more than [timeLimit] has passed since the last entry the
    buffer is emptied and nothing else changes; otherwise the whole state is
    unchanged. *)
Theorem falsy_key_checks_time (e : KeyboardEvent) (w : World) (t : Z) :
  truthy (key e) = false →
  lastEntryTime (this w) = JsNumber t →
  ((timeLimit (this w) < now (host w) - t)%Z →
     keyboardInit e w = updThis (set_entries []) w)
  ∧ ((now (host w) - t ≤ timeLimit (this w))%Z → keyboardInit e w = w).
Proof.
  intros Hk Ht. unfold keyboardInit. rewrite checkCode_falsy by done.
  unfold checkTime. rewrite Ht; simpl.
  destruct (Z.ltb_spec (timeLimit (this w)) (now (host w) - t)); split;
    intros; (done || lia).
Qed.

Lemma falsy_key_checks_time_witness :
  let e := mkKeyboardEvent (Some "") in
  let w := updHost (set_now 1500)
             (updThis (set_entries [Key "a"]) (newWorld 0)) in
  truthy (key e) = false
  ∧ lastEntryTime (this w) = JsNumber 0
  ∧ (timeLimit (this w) < now (host w) - 0)%Z
  ∧ entries (this (keyboardInit e w)) = [].
Proof.
  intros e w. split; [reflexivity|]. split; [reflexivity|].
  split; [reflexivity|].
  destruct (falsy_key_checks_time e w 0 eq_refl eq_refl) as [H _].
  by rewrite H.
Defined.

(** Without a numeric last-entry time the difference is [NaN] and the check
    never fires. *)
Lemma checkTime_undefined (w : World) :
  lastEntryTime (this w) = JsUndefined → checkTime w = w.
Proof. unfold checkTime. by intros ->. Qed.

(** ** Serialisation *)

Lemma string_app_cons (x : Ascii.ascii) (a b : string) :
  String x a +:+ b = String x (a +:+ b).
Proof. reflexivity. Qed.

Lemma string_app_assoc (a b c : string) : (a +:+ b) +:+ c = a +:+ (b +:+ c).
Proof.
  induction a as [|x a IH]; [reflexivity|].
  by rewrite !string_app_cons, IH.
Qed.

Lemma string_length_app (a b : string) :
  String.length (a +:+ b) = String.length a + String.length b.
Proof.
  induction a as [|x a IH]; [reflexivity|].
  rewrite string_app_cons. simpl. by rewrite IH.
Qed.

Lemma join_snoc (sep : string) (l : list string) (x : string) :
  l ≠ [] → join sep (l ++ [x]) = join sep l +:+ sep +:+ x.
Proof.
  induction l as [|a l IH]; [done|]. intros _.
  destruct l as [|b l]; [done|].
  change (join sep ((a :: b :: l) ++ [x]))
    with (a +:+ sep +:+ join sep ((b :: l) ++ [x])).
  rewrite IH by done.
  change (join sep (a :: b :: l)) with (a +:+ sep +:+ join sep (b :: l)).
  by rewrite !string_app_assoc.
Qed.

Lemma join_length_app (sep : string) (l1 l2 : list string) :
  0 < String.length sep → l1 ≠ [] → l2 ≠ [] →
  String.length (join sep l1) < String.length (join sep (l1 ++ l2)).
Proof.
  intros Hsep H1 H2. revert l1 H1.
  induction l2 as [|x l2 IH] using rev_ind; [done|]. intros l1 H1.
  rewrite app_assoc, join_snoc by (by destruct l1).
  rewrite !string_length_app.
  destruct l2 as [|y l2]; [rewrite app_nil_r; lia|].
  specialize (IH ltac:(done) l1 H1). lia.
Qed.

(** A proper, non-empty prefix never serialises to the same string as the
    whole sequence. *)
Lemma join_prefix_ne (l1 l2 : list string) :
  l1 ≠ [] → l2 ≠ [] → join " " l1 ≠ join " " (l1 ++ l2).
Proof.
  intros H1 H2 Heq.
  pose proof (join_length_app " " l1 l2 ltac:(simpl; lia) H1 H2) as Hlt.
  rewrite <-Heq in Hlt. lia.
Qed.

(** ** Typing a sequence on the keyboard *)

Lemma run_typeKeys_cons (t : Z) (k : string) (S : list (Z * string)) (w : World) :
  keydown (listeners (host w)) = true →
  run (typeKeys ((t, k) :: S)) w = run (typeKeys S) (press t k w).
Proof. intros Hl. unfold typeKeys, run; simpl. by rewrite Hl. Qed.

Lemma run_app (evs1 evs2 : list Event) (w : World) :
  run (evs1 ++ evs2) w = run evs2 (run evs1 w).
Proof. apply fold_left_app. Qed.

Lemma typeKeys_app (S1 S2 : list (Z * string)) :
  typeKeys (S1 ++ S2) = typeKeys S1 ++ typeKeys S2.
Proof. unfold typeKeys. apply bind_app. Qed.

Lemma press_spec (t : Z) (k : string) (w : World) :
  k ≠ "" →
  let cleared :=
    js_gt (js_sub (Finite t) (toNumber (lastEntryTime (this w))))
          (Finite (timeLimit (this w))) in
  let es := (if cleared then [] else entries (this w)) ++ [Key k] in
  entries (this (press t k w)) = es
  ∧ lastEntryTime (this (press t k w)) = JsNumber t
  ∧ pattern (this (press t k w)) = pattern (this w)
  ∧ timeLimit (this (press t k w)) = timeLimit (this w)
  ∧ listeners (host (press t k w)) = listeners (host w)
  ∧ reactions (host (press t k w))
    = reactions (host w)
      ++ (if String.eqb (join " " (toString <$> es)) (pattern (this w))
          then [t] else []).
Proof.
  intros Hk. destruct k as [|a k]; [done|].
  unfold press, keyboardInit, checkCode, checkTime, currentCode; simpl.
  destruct (js_gt _ _); simpl;
    match goal with |- context [String.eqb ?a ?b] => destruct (String.eqb a b) end;
    simpl; by rewrite ?app_nil_r.
Qed.

Lemma toString_Key (l : list string) : toString <$> (Key <$> l) = l.
Proof.
  induction l as [|x l IH]; [done|]. rewrite !fmap_cons. simpl. by f_equal.
Qed.

Lemma paced_app_l (T : Z) (l1 l2 : list Z) : paced T (l1 ++ l2) → paced T l1.
Proof.
  induction l1 as [|a l1 IH]; [done|].
  destruct l1 as [|b l1]; [done|].
  intros [Hab Hrest]. split; [done|]. by apply IH.
Qed.

Lemma paced_cons (T a b : Z) (l : list Z) :
  paced T (a :: b :: l) ↔ (b - a ≤ T)%Z ∧ paced T (b :: l).
Proof. done. Qed.

(** While symbols keep arriving within the time limit the buffer only grows,
    and the detector reacts exactly at the presses that make the serialised
    buffer equal to the pattern. *)
Lemma typeKeys_run (S : list (Z * string)) : ∀ (w : World) (pre : list string) (tl : Z),
  keydown (listeners (host w)) = true →
  Forall (λ tk, tk.2 ≠ "") S →
  entries (this w) = Key <$> pre →
  lastEntryTime (this w) = JsNumber tl →
  paced (timeLimit (this w)) (tl :: S.*1) →
  entries (this (run (typeKeys S) w)) = Key <$> (pre ++ S.*2)
  ∧ reactions (host (run (typeKeys S) w))
    = reactions (host w) ++ matchTimes (pattern (this w)) pre S.
Proof.
  induction S as [|[t k] S IH]; intros w pre tl Hl Hne Hes Hlast Hp.
  { simpl. by rewrite !app_nil_r. }
  apply Forall_cons in Hne as [Hk Hne]. simpl in Hk.
  rewrite fmap_cons in Hp. apply paced_cons in Hp as [Hgap Hp]. simpl in Hgap.
  rewrite run_typeKeys_cons by done.
  destruct (press_spec t k w Hk) as (He & Ht & Hpat & Hlim & Hlis & Hre).
  rewrite Hlast in He, Hre; simpl in He, Hre.
  assert ((timeLimit (this w) <? t - tl)%Z = false) as Hnc
    by (apply Z.ltb_ge; lia).
  rewrite Hnc, Hes in He, Hre.
  rewrite fmap_app, toString_Key in Hre; simpl in Hre.
  destruct (IH (press t k w) (pre ++ [k]) t) as [IHe IHr].
  - by rewrite Hlis.
  - done.
  - by rewrite He, fmap_app.
  - done.
  - by rewrite Hlim.
  - rewrite IHe, IHr, Hre, Hpat. split; [by rewrite <-app_assoc|].
    by rewrite <-app_assoc.
Qed.

(** The same from a buffer that is empty or stale when the first key
    arrives. *)
Lemma typeKeys_run_fresh (S : list (Z * string)) (w : World) (t0 : Z) :
  keydown (listeners (host w)) = true →
  Forall (λ tk, tk.2 ≠ "") S →
  startsFresh w (hd t0 S.*1) →
  paced (timeLimit (this w)) S.*1 →
  S = [] ∨
  (entries (this (run (typeKeys S) w)) = Key <$> S.*2
   ∧ reactions (host (run (typeKeys S) w))
     = reactions (host w) ++ matchTimes (pattern (this w)) [] S).
Proof.
  intros Hl Hne Hfresh Hp. destruct S as [|[t k] S]; [by left|right].
  apply Forall_cons in Hne as [Hk Hne]. simpl in Hk, Hfresh, Hp.
  rewrite run_typeKeys_cons by done.
  destruct (press_spec t k w Hk) as (He & Ht & Hpat & Hlim & Hlis & Hre).
  assert (entries (this (press t k w)) = [Key k]
          ∧ reactions (host (press t k w))
            = reactions (host w)
              ++ (if String.eqb (join " " [k]) (pattern (this w))
                  then [t] else [])) as [He' Hre'].
  { destruct Hfresh as [Hempty|(tl & Hlast & Hold)].
    - rewrite Hempty in He, Hre. split.
      + rewrite He. by destruct (js_gt _ _).
      + rewrite Hre. by destruct (js_gt _ _).
    - rewrite Hlast in He, Hre; simpl in He, Hre.
      assert ((timeLimit (this w) <? t - tl)%Z = true) as Hc
        by (apply Z.ltb_lt; lia).
      by rewrite Hc in He, Hre. }
  destruct (typeKeys_run S (press t k w) [k] t) as [IHe IHr].
  - by rewrite Hlis.
  - done.
  - done.
  - done.
  - by rewrite Hlim.
  - rewrite IHe, IHr, Hre', Hpat. simpl. split; [done|].
    by rewrite <-app_assoc.
Qed.

Lemma matchTimes_app (pat : string) (S1 S2 : list (Z * string)) :
  ∀ pre, matchTimes pat pre (S1 ++ S2)
         = matchTimes pat pre S1 ++ matchTimes pat (pre ++ S1.*2) S2.
Proof.
  induction S1 as [|[t k] S1 IH]; intros pre; simpl.
  { by rewrite app_nil_r. }
  rewrite IH, <-!app_assoc. done.
Qed.

Lemma matchTimes_none (pat : string) (S : list (Z * string)) :
  ∀ pre,
    (∀ P Q, S = P ++ Q → P ≠ [] → join " " (pre ++ P.*2) ≠ pat) →
    matchTimes pat pre S = [].
Proof.
  induction S as [|[t k] S IH]; intros pre Hno; simpl; [done|].
  destruct (String.eqb_spec (join " " (pre ++ [k])) pat) as [Heq|_].
  { by destruct (Hno [(t, k)] S). }
  simpl. apply IH. intros P Q -> HP.
  rewrite <-app_assoc. apply (Hno ((t, k) :: P) Q); done.
Qed.

(** Typing a sequence whose serialisation is the pattern, into a buffer that
    is empty or stale, at a pace within the time limit: nothing happens
    before the last key, and the last key triggers the reaction. *)
Lemma typeKeys_match_once (w : World) (front : list (Z * string))
    (t : Z) (k : string) :
  keydown (listeners (host w)) = true →
  Forall (λ tk, tk.2 ≠ "") (front ++ [(t, k)]) →
  startsFresh w (hd t (front ++ [(t, k)]).*1) →
  paced (timeLimit (this w)) (front ++ [(t, k)]).*1 →
  join " " (front ++ [(t, k)]).*2 = pattern (this w) →
  (∀ P Q, front = P ++ Q →
     reactions (host (run (typeKeys P) w)) = reactions (host w))
  ∧ reactions (host (run (typeKeys (front ++ [(t, k)])) w))
    = reactions (host w) ++ [t].
Proof.
  intros Hl Hne Hfresh Hp Hjoin.
  assert (∀ P Q, front = P ++ Q →
            matchTimes (pattern (this w)) [] P = []) as Hquiet.
  { intros P Q ->. apply matchTimes_none. intros P' Q' -> HP'. simpl.
    rewrite <-Hjoin, <-!app_assoc, fmap_app.
    apply join_prefix_ne; [by destruct P'|].
    rewrite !fmap_app. intros Heq. apply (f_equal length) in Heq.
    rewrite !length_app in Heq. simpl in Heq. lia. }
  split.
  - intros P Q HPQ. subst front.
    destruct P as [|[t1 k1] P]; [done|].
    destruct (typeKeys_run_fresh ((t1, k1) :: P) w t)
      as [?|[_ Hre]]; [done| | | |done|].
    + rewrite <-app_assoc in Hne. by apply Forall_app in Hne as [? _].
    + exact Hfresh.
    + rewrite <-app_assoc, fmap_app in Hp. by apply paced_app_l in Hp.
    + rewrite Hre, (Hquiet _ Q) by done. by rewrite app_nil_r.
  - destruct (typeKeys_run_fresh (front ++ [(t, k)]) w t)
      as [Hnil|[_ Hre]]; [done..| |].
    { by destruct front. }
    rewrite Hre, matchTimes_app, (Hquiet front []) by (by rewrite app_nil_r).
    simpl. rewrite fmap_app in Hjoin. simpl in Hjoin.
    rewrite Hjoin, String.eqb_refl. done.
Qed.



(** ** Sampling gamepads *)

Lemma pretty_N_go_length (x : N) : ∀ s,
  String.length s ≤ String.length (pretty_N_go x s).
Proof.
  induction (N.lt_wf_0 x) as [x _ IH]; intros s.
  destruct (decide (x = 0%N)) as [->|Hx]; [by rewrite pretty_N_go_0|].
  rewrite pretty_N_go_step by lia.
  etrans; [|apply IH; apply N.div_lt; lia]. simpl. lia.
Qed.

(** A key of [Object.keys] is never the empty string. *)
Lemma pretty_nat_truthy (n : nat) : truthy (Some (pretty n)) = true.
Proof.
  unfold pretty, pretty_nat, pretty, pretty_N.
  destruct (decide (N.of_nat n = 0%N)) as [_|Hn]; [done|].
  rewrite pretty_N_go_step by lia.
  pose proof (pretty_N_go_length (N.of_nat n `div` 10)
    (String (pretty_N_char (N.of_nat n `mod` 10)) "")) as Hlen.
  destruct (pretty_N_go _ _); [simpl in Hlen; lia|done].
Qed.

Lemma gamepadIndexes_length (w : World) :
  length (gamepadIndexes w) = size (gamepads (this w)).
Proof.
  unfold gamepadIndexes.
  by rewrite length_fmap, merge_sort_Permutation, length_fmap,
    length_map_to_list.
Qed.

Lemma gamepadIndexes_truthy (w : World) :
  Forall (λ item, truthy (Some item) = true) (gamepadIndexes w).
Proof.
  unfold gamepadIndexes. apply Forall_fmap, Forall_forall.
  intros n _. apply pretty_nat_truthy.
Qed.

Lemma buttonPressed_frame (id : nat) (w : World) :
  buttonState (this (buttonPressed id w)) = buttonState (this w)
  ∧ gamepads (this (buttonPressed id w)) = gamepads (this w)
  ∧ getGamepads (host (buttonPressed id w)) = getGamepads (host w)
  ∧ console (host (buttonPressed id w)) = console (host w) ++ [id].
Proof.
  unfold buttonPressed, checkTime; simpl.
  destruct (js_gt _ _); simpl;
    match goal with |- context [String.eqb ?a ?b] => destruct (String.eqb a b) end;
    done.
Qed.

Lemma sampleButton_frame (p : bool) (i : nat) (w : World) :
  gamepads (this (sampleButton p i w)) = gamepads (this w)
  ∧ getGamepads (host (sampleButton p i w)) = getGamepads (host w).
Proof.
  unfold sampleButton. destruct p; [|done].
  destruct (negb _); [|done].
  destruct (buttonPressed_frame i
    (updThis (λ c, set_buttonState (<[i:=true]> (buttonState c)) c) w))
    as (_ & Hg & Hs & _).
  by rewrite Hg, Hs.
Qed.

Lemma sampleButton_other (p : bool) (i b : nat) (w : World) :
  i ≠ b →
  held b (sampleButton p i w) = held b w
  ∧ presses b (sampleButton p i w) = presses b w.
Proof.
  intros Hib. unfold sampleButton, held, presses. destruct p.
  - destruct (negb _); [|done].
    destruct (buttonPressed_frame i
      (updThis (λ c, set_buttonState (<[i:=true]> (buttonState c)) c) w))
      as (Hb & _ & _ & Hc).
    rewrite Hb, Hc; simpl. rewrite lookup_insert_ne by done.
    rewrite count_occ_app; simpl. destruct (Nat.eq_dec i b); [done|].
    split; [done|lia].
  - simpl. by rewrite lookup_delete_ne.
Qed.

Lemma sampleButton_same (p : bool) (b : nat) (w : World) :
  held b (sampleButton p b w) = p
  ∧ presses b (sampleButton p b w)
    = presses b w + (if p && negb (held b w) then 1 else 0).
Proof.
  unfold sampleButton, held, presses. destruct p; simpl.
  - destruct (truthyFlag (buttonState (this w) !! b)) eqn:Hheld; simpl.
    + rewrite Hheld. split; [done|lia].
    + destruct (buttonPressed_frame b
        (updThis (λ c, set_buttonState (<[b:=true]> (buttonState c)) c) w))
        as (Hb & _ & _ & Hc).
      rewrite Hb, Hc; simpl. rewrite lookup_insert_eq.
      rewrite count_occ_app; simpl. destruct (Nat.eq_dec b b); [done|done].
  - rewrite lookup_delete_eq. split; [done|lia].
Qed.

Lemma sampleButtons_frame (bs : list bool) : ∀ (i : nat) (w : World),
  gamepads (this (forEachFrom sampleButton i bs w)) = gamepads (this w)
  ∧ getGamepads (host (forEachFrom sampleButton i bs w)) = getGamepads (host w).
Proof.
  induction bs as [|p bs IH]; intros i w; simpl; [done|].
  destruct (IH (S i) (sampleButton p i w)) as [-> ->].
  apply sampleButton_frame.
Qed.

(** Scanning the buttons from position [i] on does not touch a button below
    [i]. *)
Lemma sampleButtons_below (bs : list bool) (b : nat) : ∀ (i : nat) (w : World),
  b < i →
  held b (forEachFrom sampleButton i bs w) = held b w
  ∧ presses b (forEachFrom sampleButton i bs w) = presses b w.
Proof.
  induction bs as [|p bs IH]; intros i w Hlt; simpl; [done|].
  destruct (IH (S i) (sampleButton p i w) ltac:(lia)) as [-> ->].
  apply sampleButton_other. lia.
Qed.

(** One scan of a device's buttons: button [b] ends up flagged exactly when
    it is pressed, and a symbol is emitted for it exactly on a rising edge. *)
Lemma sampleButtons_at (bs : list bool) (b : nat) (p : bool) :
  ∀ (i : nat) (w : World),
  i ≤ b → bs !! (b - i) = Some p →
  held b (forEachFrom sampleButton i bs w) = p
  ∧ presses b (forEachFrom sampleButton i bs w)
    = presses b w + (if p && negb (held b w) then 1 else 0).
Proof.
  induction bs as [|x bs IH]; intros i w Hle Hp; [done|]. simpl.
  destruct (decide (i = b)) as [->|Hne].
  - rewrite Nat.sub_diag in Hp. simpl in Hp. injection Hp as ->.
    destruct (sampleButtons_below bs b (S b) (sampleButton p b w) ltac:(lia))
      as [-> ->].
    apply sampleButton_same.
  - replace (b - i) with (S (b - S i)) in Hp by lia. simpl in Hp.
    destruct (IH (S i) (sampleButton x i w) ltac:(lia) Hp) as [-> ->].
    by destruct (sampleButton_other x i b w Hne) as [-> ->].
Qed.

(** With one device connected, a pass scans the buttons of the device in
    the first slot of the snapshot and asks for another frame. *)
Lemma pass_single (snapshot : list (option Gamepad)) (pad : Gamepad) (w : World) :
  size (gamepads (this w)) = 1 →
  snapshot !! 0 = Some (Some pad) →
  pass snapshot w
  = requestAnimationFrame
      (forEachFrom sampleButton 0 (buttons pad)
         (updHost (set_getGamepads snapshot) w)).
Proof.
  intros Hsize Hpad. unfold pass, readGamepadValues.
  set (w0 := updHost (set_getGamepads snapshot) w).
  assert (length (gamepadIndexes w0) = 1) as Hlen
    by (by rewrite gamepadIndexes_length).
  pose proof (gamepadIndexes_truthy w0) as Htr.
  destruct (gamepadIndexes w0) as [|item [|? ?]] eqn:Hidx; try done.
  apply Forall_cons in Htr as [Hitem _].
  assert (sampleGamepad item 0 w0
          = forEachFrom sampleButton 0 (buttons pad) w0) as Hbody.
  { unfold sampleGamepad. rewrite Hitem; simpl.
    unfold connectedGamepads; simpl. by rewrite Hpad. }
  unfold forEach; simpl. rewrite Hbody.
  set (w1 := forEachFrom sampleButton 0 (buttons pad) w0).
  assert (length (gamepadIndexes w1) = 1) as Hlen1.
  { rewrite gamepadIndexes_length. unfold w1.
    destruct (sampleButtons_frame (buttons pad) 0 w0) as [-> _]. done. }
  by rewrite Hlen1.
Qed.

Lemma pass_size (snapshot : list (option Gamepad)) (pad : Gamepad) (w : World) :
  size (gamepads (this w)) = 1 →
  snapshot !! 0 = Some (Some pad) →
  size (gamepads (this (pass snapshot w))) = 1.
Proof.
  intros Hsize Hpad. rewrite (pass_single snapshot pad) by done. simpl.
  by destruct (sampleButtons_frame (buttons pad) 0
    (updHost (set_getGamepads snapshot) w)) as [-> _].
Qed.

(** The edge detector, for one device: after a pass the flag of a button
    tells whether it is pressed, and the pass emits a symbol for it exactly
    when it is pressed and was not flagged. *)
Lemma pass_edge (snapshot : list (option Gamepad)) (b : nat) (p : bool) (w : World) :
  size (gamepads (this w)) = 1 →
  slot0 snapshot b = Some p →
  size (gamepads (this (pass snapshot w))) = 1
  ∧ held b (pass snapshot w) = p
  ∧ presses b (pass snapshot w)
    = presses b w + (if p && negb (held b w) then 1 else 0).
Proof.
  intros Hsize Hp. unfold slot0 in Hp.
  destruct (snapshot !! 0) as [[pad|]|] eqn:Hpad; try done.
  split; [by apply (pass_size snapshot pad)|].
  rewrite (pass_single snapshot pad) by done.
  apply (sampleButtons_at (buttons pad) b p 0
    (updHost (set_getGamepads snapshot) w)); [lia|].
  by rewrite Nat.sub_0_r.
Qed.

Lemma passes_cons (s : list (option Gamepad)) (ss : list (list (option Gamepad)))
    (w : World) :
  passes (s :: ss) w = passes ss (pass s w).
Proof. done. Qed.

(** While the button stays down, further passes emit nothing for it. *)
Lemma passes_hold (b : nat) (ss : list (list (option Gamepad))) : ∀ w : World,
  size (gamepads (this w)) = 1 →
  Forall (λ s, slot0 s b = Some true) ss →
  held b w = true →
  size (gamepads (this (passes ss w))) = 1
  ∧ held b (passes ss w) = true
  ∧ presses b (passes ss w) = presses b w.
Proof.
  induction ss as [|s ss IH]; intros w Hsize Hall Hheld; [done|].
  apply Forall_cons in Hall as [Hs Hall]. rewrite passes_cons.
  destruct (pass_edge s b true w Hsize Hs) as (Hsize' & Hheld' & Hpr).
  destruct (IH (pass s w) Hsize' Hall Hheld') as (? & ? & ->).
  rewrite Hpr, Hheld. simpl. split; [done|]. split; [done|lia].
Qed.

(** Pressing a button that is not flagged and keeping it down emits one
    symbol, however many passes see it pressed. *)
Lemma passes_press (b : nat) (ss : list (list (option Gamepad))) (w : World) :
  size (gamepads (this w)) = 1 →
  ss ≠ [] →
  Forall (λ s, slot0 s b = Some true) ss →
  held b w = false →
  size (gamepads (this (passes ss w))) = 1
  ∧ held b (passes ss w) = true
  ∧ presses b (passes ss w) = presses b w + 1.
Proof.
  intros Hsize Hne Hall Hheld. destruct ss as [|s ss]; [done|].
  apply Forall_cons in Hall as [Hs Hall]. rewrite passes_cons.
  destruct (pass_edge s b true w Hsize Hs) as (Hsize' & Hheld' & Hpr).
  destruct (passes_hold b ss (pass s w) Hsize' Hall Hheld') as (? & ? & ->).
  rewrite Hpr, Hheld. done.
Qed.

(** Passes that see the button up emit nothing for it and clear its flag. *)
Lemma passes_release (b : nat) (ss : list (list (option Gamepad))) : ∀ w : World,
  size (gamepads (this w)) = 1 →
  ss ≠ [] →
  Forall (λ s, slot0 s b = Some false) ss →
  size (gamepads (this (passes ss w))) = 1
  ∧ held b (passes ss w) = false
  ∧ presses b (passes ss w) = presses b w.
Proof.
  induction ss as [|s ss IH]; intros w Hsize Hne Hall; [done|].
  apply Forall_cons in Hall as [Hs Hall]. rewrite passes_cons.
  destruct (pass_edge s b false w Hsize Hs) as (Hsize' & Hheld' & Hpr).
  simpl in Hpr. destruct ss as [|s' ss].
  { simpl. split; [done|]. split; [done|lia]. }
  destruct (IH (pass s w) Hsize' ltac:(done) Hall) as (? & ? & ->).
  split; [done|]. split; [done|lia].
Qed.

(** C4 (amended): the edge state is kept per button index.  With one device
    connected, sampled from the first slot of the snapshot: a button that
    goes down and is held over any number of passes emits exactly one
    symbol if its flag was clear and none if a flag for its index was
    already set; passes that see it released clear the flag and emit
    nothing; pressing it again then emits exactly one more symbol. *)
Theorem edge_triggered_single_device (w : World) (b : nat)
    (hold release again : list (list (option Gamepad))) :
  size (gamepads (this w)) = 1 →
  hold ≠ [] → release ≠ [] → again ≠ [] →
  Forall (λ s, slot0 s b = Some true) hold →
  Forall (λ s, slot0 s b = Some false) release →
  Forall (λ s, slot0 s b = Some true) again →
  presses b (passes hold w) = presses b w + (if held b w then 0 else 1)
  ∧ held b (passes hold w) = true
  ∧ presses b (passes release (passes hold w)) = presses b (passes hold w)
  ∧ held b (passes release (passes hold w)) = false
  ∧ presses b (passes again (passes release (passes hold w)))
    = presses b (passes hold w) + 1.
Proof.
  intros Hsize Hh Hr Ha Hhold Hrel Hag.
  assert (size (gamepads (this (passes hold w))) = 1
          ∧ held b (passes hold w) = true
          ∧ presses b (passes hold w)
            = presses b w + (if held b w then 0 else 1)) as (Hs1 & Hh1 & Hp1).
  { destruct (held b w) eqn:Hheld.
    - destruct (passes_hold b hold w Hsize Hhold Hheld) as (? & ? & ->).
      split; [done|]. split; [done|lia].
    - by apply passes_press. }
  destruct (passes_release b release _ Hs1 Hr Hrel) as (Hs2 & Hh2 & Hp2).
  destruct (passes_press b again _ Hs2 Ha Hag Hh2) as (_ & _ & Hp3).
  rewrite Hp3, Hp2. done.
Qed.

Lemma edge_triggered_single_device_witness :
  let w := run [Pads [Some (padWith 0 10 [])]; connects (padWith 0 10 [])]
             (detector "gamepad" "starpower" 0) in
  let down := [Some (padWith 0 10 [7])] in
  let up := [Some (padWith 0 10 [])] in
  presses 7 w = 0
  ∧ presses 7 (passes [down; down; down] w) = 1
  ∧ presses 7 (passes [up] (passes [down; down; down] w)) = 1
  ∧ presses 7 (passes [down; down] (passes [up] (passes [down; down; down] w)))
    = 2.
Proof.
  intros w down up.
  destruct (edge_triggered_single_device w 7
              [down; down; down] [up] [down; down])
    as (H1 & _ & H2 & _ & H3).
  - vm_compute; reflexivity.
  - discriminate.
  - discriminate.
  - discriminate.
  - repeat (apply Forall_cons; split; [vm_compute; reflexivity|]).
    apply Forall_nil_2.
  - repeat (apply Forall_cons; split; [vm_compute; reflexivity|]).
    apply Forall_nil_2.
  - repeat (apply Forall_cons; split; [vm_compute; reflexivity|]).
    apply Forall_nil_2.
  - assert (held 7 w = false) as Hheld by (vm_compute; reflexivity).
    assert (presses 7 w = 0) as H0 by (vm_compute; reflexivity).
    rewrite Hheld, H0 in H1. rewrite H3, H2, H1.
    split; [exact H0|]. repeat split; reflexivity.
Defined.

(** A flag left set masks a hold: the device leaves with button 7 down, a
    device connects at the same index with its button 7 down, and three
    passes over that hold emit nothing. *)
Lemma stale_flag_masks_a_hold :
  let w := run [Pads [Some (padWith 0 10 [7])]; connects (padWith 0 10 [7]);
                disconnects (padWith 0 10 [7]);
                Pads [Some (padWith 0 12 [7])]; connects (padWith 0 12 [7])]
             (detector "gamepad" "starpower" 0) in
  let down := [Some (padWith 0 12 [7])] in
  presses 7 w = 1
  ∧ held 7 w = true
  ∧ presses 7 (passes [down; down; down] w) = presses 7 w + 0.
Proof.
  intros w down. split; [vm_compute; reflexivity|].
  assert (held 7 w = true) as Hheld by (vm_compute; reflexivity).
  split; [exact Hheld|].
  destruct (passes_hold 7 [down; down; down] w) as (_ & _ & ->);
    [| |exact Hheld|lia].
  - vm_compute; reflexivity.
  - repeat (apply Forall_cons; split; [vm_compute; reflexivity|]).
    apply Forall_nil_2.
Qed.

(** C4, as stated, fails: the edge state has no device component.  Button 0
    of the first device is held down throughout and never released, while
    button 0 of the devices that connect later is up.  Scanning those
    devices clears the flag the first one set, so the one press-and-hold
    emits a symbol again on each later pass. *)
Lemma held_button_emits_on_every_pass :
  let snapshot :=
    [Some (padWith 0 2 [0]); Some (padWith 1 2 []); Some (padWith 2 2 [])] in
  let w := run [Pads snapshot; connects (padWith 0 2 [0]);
                connects (padWith 1 2 [])]
             (detector "gamepad" "starpower" 0) in
  presses 0 w = 1
  ∧ presses 0 (run [connects (padWith 2 2 [])] w) = 2
  ∧ presses 0 (pass snapshot (run [connects (padWith 2 2 [])] w)) = 3.
Proof. vm_compute. done. Qed.

(** ** The time limit on the two paths *)

(** Keyboard: a key that arrives more than [timeLimit] after the last entry
    starts a buffer of its own. *)
Lemma press_after_gap (t tl : Z) (k : string) (w : World) :
  k ≠ "" →
  lastEntryTime (this w) = JsNumber tl →
  (timeLimit (this w) < t - tl)%Z →
  entries (this (press t k w)) = [Key k].
Proof.
  intros Hk Hlast Hgap. destruct (press_spec t k w Hk) as (He & _).
  rewrite Hlast in He; simpl in He.
  assert ((timeLimit (this w) <? t - tl)%Z = true) as Hc
    by (apply Z.ltb_lt; lia).
  by rewrite Hc in He.
Qed.

(** Gamepad: [buttonPressed] stores [this.now], which is [undefined]. *)
Lemma buttonPressed_lastEntryTime (id : nat) (w : World) :
  lastEntryTime (this (buttonPressed id w)) = JsUndefined.
Proof.
  unfold buttonPressed, checkTime; simpl.
  destruct (js_gt _ _); simpl;
    match goal with |- context [String.eqb ?a ?b] => destruct (String.eqb a b) end;
    done.
Qed.

(** From then on the timeout check compares with [NaN]: whatever the time,
    the next button is appended to the old buffer. *)
Lemma buttonPressed_never_resets (id1 id2 : nat) (t : Z) (w : World) :
  entries (this (buttonPressed id2 (updHost (set_now t) (buttonPressed id1 w))))
  = entries (this (buttonPressed id1 w)) ++ [Button id2].
Proof.
  pose proof (buttonPressed_lastEntryTime id1 w) as Hlast.
  set (w1 := buttonPressed id1 w) in *.
  unfold buttonPressed at 1, checkTime; simpl. rewrite Hlast; simpl.
  match goal with |- context [String.eqb ?a ?b] => destruct (String.eqb a b) end;
    done.
Qed.

(** C2 fails on the gamepad path.  Time limit 1000 ms: button 7 is sampled
    at time 0 and button 1 at time 5000, yet both sit in the buffer, and the
    last-entry time is [undefined]. *)
Theorem gamepad_buffer_survives_gap :
  let w := run [Pads [Some (padWith 0 10 [7])]; connects (padWith 0 10 [7]);
                Clock 5000;
                Pads [Some (padWith 0 10 [1]); Some (padWith 1 10 [])];
                connects (padWith 1 10 [])]
             (detector "gamepad" "starpower" 0) in
  timeLimit (this w) = 1000%Z
  ∧ entries (this w) = [Button 7; Button 1]
  ∧ lastEntryTime (this w) = JsUndefined.
Proof. vm_compute. done. Qed.

(** ** The polling loop *)

Lemma buttonPressed_frames (id : nat) (w : World) :
  frames (host (buttonPressed id w)) = frames (host w).
Proof.
  unfold buttonPressed, checkTime; simpl.
  destruct (js_gt _ _); simpl;
    match goal with |- context [String.eqb ?a ?b] => destruct (String.eqb a b) end;
    done.
Qed.

Lemma sampleButton_frames (p : bool) (i : nat) (w : World) :
  frames (host (sampleButton p i w)) = frames (host w).
Proof.
  unfold sampleButton. destruct p; [|done].
  destruct (negb _); [|done]. by rewrite buttonPressed_frames.
Qed.

Lemma sampleButtons_frames (bs : list bool) : ∀ (i : nat) (w : World),
  frames (host (forEachFrom sampleButton i bs w)) = frames (host w).
Proof.
  induction bs as [|p bs IH]; intros i w; simpl; [done|].
  by rewrite IH, sampleButton_frames.
Qed.

Lemma sampleGamepads_frame (items : list string) : ∀ (i : nat) (w : World),
  gamepads (this (forEachFrom sampleGamepad i items w)) = gamepads (this w)
  ∧ frames (host (forEachFrom sampleGamepad i items w)) = frames (host w).
Proof.
  induction items as [|item items IH]; intros i w; simpl; [done|].
  destruct (IH (S i) (sampleGamepad item i w)) as [-> ->].
  unfold sampleGamepad. destruct (negb _); [done|].
  destruct (connectedGamepads w !! i) as [[pad|]|]; [|done..].
  unfold forEach. rewrite sampleButtons_frames.
  by destruct (sampleButtons_frame (buttons pad) 0 w) as [-> _].
Qed.

(** A pass run on the element asks for another frame exactly when a device
    index is left in [gamepads]. *)
Lemma readGamepadValues_reschedules (w : World) :
  gamepads (this (readGamepadValues Element w)) = gamepads (this w)
  ∧ frames (host (readGamepadValues Element w))
    = frames (host w) + (if decide (size (gamepads (this w)) = 0) then 0 else 1).
Proof.
  unfold readGamepadValues, forEach.
  destruct (sampleGamepads_frame (gamepadIndexes w) 0 w) as [Hg Hf].
  set (w1 := forEachFrom sampleGamepad 0 (gamepadIndexes w) w) in *.
  rewrite gamepadIndexes_length, Hg.
  destruct (decide (size (gamepads (this w)) = 0)) as [->|Hne]; simpl.
  - split; [done|lia].
  - destruct (size (gamepads (this w))); [done|]. simpl.
    split; [done|lia].
Qed.

(** The callback handed to [requestAnimationFrame] runs without a receiver:
    it throws before it reads anything, samples nothing and asks for no
    further frame. *)
Lemma runFrames_faults (n : nat) : ∀ w : World,
  this (runFrames n w) = this w
  ∧ frames (host (runFrames n w)) = frames (host w)
  ∧ console (host (runFrames n w)) = console (host w)
  ∧ uncaught (host (runFrames n w)) = uncaught (host w) + n.
Proof.
  induction n as [|n IH]; intros w; simpl.
  { split; [done|]. split; [done|]. split; [done|lia]. }
  destruct (IH (throwTypeError w)) as (-> & -> & -> & ->). simpl.
  split; [done|]. split; [done|]. split; [done|lia].
Qed.

Lemma animationFrame_faults (w : World) :
  this (step w AnimationFrame) = this w
  ∧ frames (host (step w AnimationFrame)) = 0
  ∧ console (host (step w AnimationFrame)) = console (host w)
  ∧ uncaught (host (step w AnimationFrame))
    = uncaught (host w) + frames (host w).
Proof.
  simpl.
  by destruct (runFrames_faults (frames (host w)) (updHost (set_frames 0) w))
    as (-> & -> & -> & ->).
Qed.

(** C6 fails after the first pass.  A device connects while button 7 is
    down: the pass run by [gamepadConnected] emits the symbol and asks for a
    frame.  When the frame comes the callback throws; the device is still
    connected but no frame is pending, and whatever the buttons do next is
    never sampled. *)
Theorem polling_stops_with_device_connected :
  let w := run [Pads [Some (padWith 0 10 [7])]; connects (padWith 0 10 [7])]
             (detector "gamepad" "starpower" 0) in
  let w' := run [AnimationFrame] w in
  let w'' := run [Pads [Some (padWith 0 10 [1])]; AnimationFrame;
                  Pads [Some (padWith 0 10 [])]; AnimationFrame] w' in
  (frames (host w) = 1 ∧ console (host w) = [7])
  ∧ (gamepads (this w') !! 0 = Some true ∧ frames (host w') = 0
     ∧ uncaught (host w') = 1)
  ∧ (console (host w'') = [7] ∧ entries (this w'') = [Button 7]).
Proof. vm_compute. done. Qed.

(** ** Disconnecting a device *)

(** C7 (amended): a disconnection notification that carries a gamepad
    removes the device's index from [gamepads] and changes nothing else, the
    edge state included; a notification without a gamepad changes nothing.
    So when the only recorded device leaves and a device then connects at
    the same index and is sampled from the first slot of the snapshot, a
    button that was flagged at the disconnection and is down on the new
    device emits no symbol and stays flagged, and a button that is up on
    the new device has its flag cleared. *)
Theorem gamepadDisconnected_keeps_edge_state (pad : Gamepad) (w : World) :
  gamepadDisconnected (mkGamepadEvent (Some pad)) w
  = mkWorld
      (mkCheatCode (pattern (this w)) (type (this w)) (timeLimit (this w))
         (duration (this w)) (delete (index pad) (gamepads (this w)))
         (buttonState (this w)) (entries (this w)) (lastEntryTime (this w))
         (timer (this w)))
      (host w)
  ∧ gamepadDisconnected (mkGamepadEvent None) w = w
  ∧ ∀ (snapshot : list (option Gamepad)) (pad' : Gamepad) (b : nat),
      size (gamepads (this w)) = 1 →
      is_Some (gamepads (this w) !! index pad) →
      index pad' = index pad →
      gamepadconnected (listeners (host w)) = true →
      (held b w = true → slot0 snapshot b = Some true →
         held b (run [Pads snapshot; connects pad']
                   (gamepadDisconnected (mkGamepadEvent (Some pad)) w)) = true
         ∧ presses b (run [Pads snapshot; connects pad']
                        (gamepadDisconnected (mkGamepadEvent (Some pad)) w))
           = presses b w)
      ∧ (slot0 snapshot b = Some false →
         held b (run [Pads snapshot; connects pad']
                   (gamepadDisconnected (mkGamepadEvent (Some pad)) w)) = false
         ∧ presses b (run [Pads snapshot; connects pad']
                        (gamepadDisconnected (mkGamepadEvent (Some pad)) w))
           = presses b w).
Proof.
  split; [done|]. split; [done|].
  intros snapshot pad' b Hsize Hin Hidx Hl.
  set (w1 := gamepadDisconnected (mkGamepadEvent (Some pad)) w).
  set (w2 := updThis
               (λ c, set_gamepads (<[index pad' := true]> (gamepads c)) c) w1).
  assert (run [Pads snapshot; connects pad'] w1 = pass snapshot w2) as ->.
  { unfold run, connects; simpl. by rewrite Hl. }
  assert (size (gamepads (this w2)) = 1) as Hsize2.
  { unfold w2, w1; simpl. rewrite Hidx, insert_delete_eq.
    by rewrite map_size_insert_Some. }
  split.
  - intros Hheld Hdown.
    destruct (pass_edge snapshot b true w2 Hsize2 Hdown) as (_ & -> & ->).
    change (held b w2) with (held b w). change (presses b w2) with (presses b w).
    rewrite Hheld. simpl. split; [done|lia].
  - intros Hup.
    destruct (pass_edge snapshot b false w2 Hsize2 Hup) as (_ & -> & ->).
    change (presses b w2) with (presses b w). simpl. split; [done|lia].
Qed.

Lemma gamepadDisconnected_keeps_edge_state_witness :
  let w := run [Pads [Some (padWith 0 10 [7; 3])];
                connects (padWith 0 10 [7; 3])]
             (detector "gamepad" "starpower" 0) in
  let w' := run [Pads [Some (padWith 0 12 [7])]; connects (padWith 0 12 [7])]
              (gamepadDisconnected
                 (mkGamepadEvent (Some (padWith 0 10 [7; 3]))) w) in
  (held 7 w = true ∧ held 3 w = true ∧ presses 7 w = 1 ∧ presses 3 w = 1)
  ∧ (held 7 w' = true ∧ presses 7 w' = 1)
  ∧ (held 3 w' = false ∧ presses 3 w' = 1).
Proof.
  intros w w'.
  destruct (gamepadDisconnected_keeps_edge_state (padWith 0 10 [7; 3]) w)
    as (_ & _ & Hre).
  assert (held 7 w = true) as Hh7 by (vm_compute; reflexivity).
  assert (held 3 w = true) as Hh3 by (vm_compute; reflexivity).
  assert (presses 7 w = 1) as Hp7 by (vm_compute; reflexivity).
  assert (presses 3 w = 1) as Hp3 by (vm_compute; reflexivity).
  assert (size (gamepads (this w)) = 1) as Hsize by (vm_compute; reflexivity).
  assert (is_Some (gamepads (this w) !! index (padWith 0 10 [7; 3]))) as Hin
    by (vm_compute; eexists; reflexivity).
  assert (gamepadconnected (listeners (host w)) = true) as Hl
    by (vm_compute; reflexivity).
  split; [repeat split; assumption|].
  unfold w'. split.
  - destruct (Hre [Some (padWith 0 12 [7])] (padWith 0 12 [7]) 7
                Hsize Hin eq_refl Hl) as [Hstale _].
    destruct (Hstale Hh7 ltac:(vm_compute; reflexivity)) as [Ha Hb].
    split; [exact Ha|]. rewrite Hb. exact Hp7.
  - destruct (Hre [Some (padWith 0 12 [7])] (padWith 0 12 [7]) 3
                Hsize Hin eq_refl Hl) as [_ Hclear].
    destruct (Hclear ltac:(vm_compute; reflexivity)) as [Ha Hb].
    split; [exact Ha|]. rewrite Hb. exact Hp3.
Defined.

(** C7, as stated, fails: a device leaves while its button 7 is down, and
    the flag of button 7 outlives the disconnection.  Another device that
    then connects at the same index with its button 7 down gets no symbol
    for that press. *)
Lemma edge_state_survives_disconnection :
  let w := run [Pads [Some (padWith 0 10 [7])]; connects (padWith 0 10 [7]);
                disconnects (padWith 0 10 [7])]
             (detector "gamepad" "starpower" 0) in
  let w' := run [Pads [Some (padWith 0 12 [7])]; connects (padWith 0 12 [7])]
              w in
  gamepads (this w) !! 0 = None
  ∧ buttonState (this w) !! 7 = Some true
  ∧ console (host w) = [7]
  ∧ gamepads (this w') !! 0 = Some true
  ∧ console (host w') = [7].
Proof. vm_compute. done. Qed.

(** ** After a match *)



Lemma fireConfetti_over (d end_ : Z) (w : World) :
  (end_ ≤ now (host w))%Z →
  fireConfetti d end_ w = destroy (clearInterval (timer (this w)) w).
Proof.
  intros Hle. unfold fireConfetti.
  destruct (Z.leb_spec (end_ - now (host w)) 0); [done|lia].
Qed.

















(** ** The presets, end to end *)

(** The star-power combination on one pad, each button pressed and released
    in turn: the passes emit the nine symbols and the ninth triggers the
    reaction. *)
Example starpower_on_one_pad :
  let w := run [Pads [Some (padWith 0 10 [])]; connects (padWith 0 10 [])]
             (detector "gamepad" "starpower" 0) in
  let tap b := [[Some (padWith 0 10 [b])]; [Some (padWith 0 10 [])]] in
  let front := [7; 1; 7; 0; 7; 2; 7; 3] ≫= tap in
  reactions (host (passes front w)) = []
  ∧ console (host (passes (front ++ tap 6) w)) = [7; 1; 7; 0; 7; 2; 7; 3; 6]
  ∧ reactions (host (passes (front ++ tap 6) w)) = [0%Z].
Proof. vm_compute. done. Qed.

(** * Further properties of the code *)

(** ** Presets and lifecycle *)

(** X1: resolving a pattern twice is the same as resolving it once: no
    preset expands to the name of a preset. *)
Theorem patternMatcher_idempotent (s : string) :
  patternMatcher (patternMatcher s) = patternMatcher s.
Proof.
  destruct (String.eqb_spec s "starpower") as [->|Hs]; [reflexivity|].
  destruct (String.eqb_spec s "konamicode") as [->|Hk]; [reflexivity|].
  assert (patternMatcher s = s) as H; [|by rewrite !H].
  unfold patternMatcher.
  destruct (String.eqb_spec s "starpower"); [done|].
  by destruct (String.eqb_spec s "konamicode").
Qed.

(** X2: [listen()] registers nothing twice, [destroy()] undoes it on a
    detector that was idle, and every [type] other than "gamepad" listens to
    the keyboard and to nothing else. *)
Theorem listen_destroy_round_trip (w : World) :
  listen (listen w) = listen w
  ∧ (idle w → destroy (listen w) = w)
  ∧ (idle w → type (this w) ≠ "gamepad" →
       listeners (host (listen w)) = mkListeners true false false)
  ∧ (idle w → type (this w) = "gamepad" →
       listeners (host (listen w)) = mkListeners false true true).
Proof.
  destruct w as [c [t g [k gc gd] iv nh fr co re un]].
  unfold listen, destroy, idle, updHost; simpl.
  destruct (String.eqb_spec (type c) "gamepad") as [Hty|Hty]; simpl;
    rewrite ?Hty; simpl.
  - split; [done|]. split; [by intros [= -> -> ->]|].
    split; [done|]. by intros [= -> -> ->].
  - destruct (String.eqb_spec (type c) "gamepad") as [|_]; [done|]. simpl.
    split; [done|]. split; [by intros [= -> -> ->]|].
    split; [by intros [= -> -> ->]|done].
Qed.

Lemma listen_destroy_round_trip_witness :
  let w := updThis (set_type "mouse") (newWorld 0) in
  idle w
  ∧ listeners (host (listen w)) = mkListeners true false false
  ∧ destroy (listen w) = w.
Proof.
  intros w.
  destruct (listen_destroy_round_trip w) as (_ & Hback & Hkb & _).
  split; [reflexivity|]. split.
  - apply Hkb; [reflexivity|vm_compute; discriminate].
  - apply Hback. reflexivity.
Defined.

(** X3: [destroy()] removes the listeners of the current [type] only: after
    the type is switched between "gamepad" and anything else, the listeners
    registered under the old type stay registered. *)
Theorem destroy_after_type_change (w : World) (ty : string) :
  idle w →
  (type (this w) ≠ "gamepad" →
     listeners (host (destroy (updThis (set_type "gamepad") (listen w))))
     = mkListeners true false false)
  ∧ (type (this w) = "gamepad" → ty ≠ "gamepad" →
     listeners (host (destroy (updThis (set_type ty) (listen w))))
     = mkListeners false true true).
Proof.
  destruct w as [c [t g [k gc gd] iv nh fr co re un]].
  unfold listen, destroy, idle, updHost, updThis; simpl.
  intros [= -> -> ->]. split.
  - intros Hty.
    destruct (String.eqb_spec (type c) "gamepad") as [|_]; [done|]. done.
  - intros Hty Hne. rewrite Hty. simpl.
    by destruct (String.eqb_spec ty "gamepad").
Qed.

Lemma destroy_after_type_change_witness :
  let w := newWorld 0 in
  idle w
  ∧ keydown (listeners (host
      (destroy (updThis (set_type "gamepad") (listen w))))) = true.
Proof.
  intros w. split; [reflexivity|].
  destruct (destroy_after_type_change w "keyboard" eq_refl) as [H _].
  rewrite H; [reflexivity|]. vm_compute. discriminate.
Defined.

(** ** What no event does *)

Lemma join_push_nonempty (l : list string) (x : string) :
  x ≠ "" → join " " (l ++ [x]) ≠ "".
Proof.
  intros Hx. destruct l as [|a l]; [done|].
  rewrite join_snoc by done. intros Heq.
  apply (f_equal String.length) in Heq.
  rewrite !string_length_app in Heq. simpl in Heq. lia.
Qed.

Lemma toString_Button_nonempty (id : nat) : toString (Button id) ≠ "".
Proof.
  simpl. pose proof (pretty_nat_truthy id) as Htr.
  by destruct (pretty id).
Qed.

Lemma quiet_refl (w : World) : quiet w w.
Proof. by split. Qed.

Lemma quiet_trans (w1 w2 w3 : World) : quiet w1 w2 → quiet w2 w3 → quiet w1 w3.
Proof.
  intros [Hc1 Hr1] [Hc2 Hr2]. split; [by rewrite Hc2|].
  intros Hp. rewrite Hr2, Hr1; [done..|].
  injection Hc1 as Hpat _ _ _. by rewrite Hpat.
Qed.

Lemma checkTime_quiet (w : World) : quiet w (checkTime w).
Proof. unfold checkTime. destruct (js_gt _ _); by split. Qed.

Lemma checkCode_quiet (e : KeyboardEvent) (w : World) : quiet w (checkCode e w).
Proof.
  unfold checkCode. destruct (key e) as [k|]; [|apply quiet_refl].
  destruct k as [|a k]; simpl; [apply quiet_refl|].
  unfold currentCode; simpl.
  destruct (String.eqb_spec
    (join " " (toString <$> entries (this w) ++ [Key (String a k)]))
    (pattern (this w))) as [Heq|_]; [|by split].
  split; [done|]. intros Hp. rewrite Hp, fmap_app in Heq.
  by apply join_push_nonempty in Heq.
Qed.

Lemma buttonPressed_quiet (id : nat) (w : World) : quiet w (buttonPressed id w).
Proof.
  unfold buttonPressed.
  set (w1 := checkTime (updHost (λ h, set_console (console h ++ [id]) h) w)).
  assert (quiet w w1) as [Hc Hr].
  { apply (quiet_trans _ (updHost (λ h, set_console (console h ++ [id]) h) w));
      [by split|apply checkTime_quiet]. }
  unfold currentCode; simpl.
  destruct (String.eqb_spec
    (join " " (toString <$> entries (this w1) ++ [Button id]))
    (pattern (this w1))) as [Heq|_].
  - split; [exact Hc|]. intros Hp. injection Hc as Hpat _ _ _.
    rewrite Hpat, Hp, fmap_app in Heq.
    by apply join_push_nonempty in Heq; [|apply toString_Button_nonempty].
  - split; [exact Hc|]. intros Hp. simpl. by apply Hr.
Qed.

Lemma sampleButton_quiet (p : bool) (i : nat) (w : World) :
  quiet w (sampleButton p i w).
Proof.
  unfold sampleButton. destruct p; [|by split].
  destruct (negb _); [|apply quiet_refl].
  eapply quiet_trans; [|apply buttonPressed_quiet]. by split.
Qed.

Lemma sampleButtons_quiet (bs : list bool) : ∀ (i : nat) (w : World),
  quiet w (forEachFrom sampleButton i bs w).
Proof.
  induction bs as [|p bs IH]; intros i w; simpl; [apply quiet_refl|].
  eapply quiet_trans; [apply sampleButton_quiet|apply IH].
Qed.

Lemma sampleGamepad_quiet (item : string) (i : nat) (w : World) :
  quiet w (sampleGamepad item i w).
Proof.
  unfold sampleGamepad. destruct (negb _); [apply quiet_refl|].
  destruct (connectedGamepads w !! i) as [[pad|]|]; try apply quiet_refl.
  apply sampleButtons_quiet.
Qed.

Lemma sampleGamepads_quiet (items : list string) : ∀ (i : nat) (w : World),
  quiet w (forEachFrom sampleGamepad i items w).
Proof.
  induction items as [|item items IH]; intros i w; simpl; [apply quiet_refl|].
  eapply quiet_trans; [apply sampleGamepad_quiet|apply IH].
Qed.

Lemma readGamepadValues_quiet (r : Receiver) (w : World) :
  quiet w (readGamepadValues r w).
Proof.
  destruct r; simpl; [|by split].
  unfold forEach.
  pose proof (sampleGamepads_quiet (gamepadIndexes w) 0 w) as [Hc Hr].
  destruct (0 <? _); by split.
Qed.

Lemma runFrames_quiet (n : nat) : ∀ w : World, quiet w (runFrames n w).
Proof.
  induction n as [|n IH]; intros w; simpl; [apply quiet_refl|].
  eapply quiet_trans; [|apply IH]. by split.
Qed.

Lemma destroy_quiet (w : World) : quiet w (destroy w).
Proof. unfold destroy. destruct (String.eqb _ _); by split. Qed.

Lemma step_quiet (w : World) (ev : Event) : quiet w (step w ev).
Proof.
  destruct ev as [t|snapshot|e|e|e|handle|]; simpl.
  - by split.
  - by split.
  - destruct (keydown _); [|apply quiet_refl]. unfold keyboardInit.
    eapply quiet_trans; [apply checkTime_quiet|apply checkCode_quiet].
  - destruct (gamepadconnected _); [|apply quiet_refl].
    unfold gamepadConnected. destruct (gamepad e) as [pad|]; [|apply quiet_refl].
    eapply quiet_trans; [|apply readGamepadValues_quiet]. by split.
  - destruct (gamepaddisconnected _); [|apply quiet_refl].
    unfold gamepadDisconnected. destruct (gamepad e); by split.
  - destruct (intervals (host w) !! handle) as [[d end_]|]; [|apply quiet_refl].
    unfold fireConfetti. destruct (_ <=? _)%Z; [|apply quiet_refl].
    eapply quiet_trans; [|apply destroy_quiet]. by split.
  - eapply quiet_trans; [|apply runFrames_quiet]. by split.
Qed.

Lemma run_quiet (evs : list Event) : ∀ w : World, quiet w (run evs w).
Proof.
  induction evs as [|ev evs IH]; intros w; [apply quiet_refl|].
  eapply quiet_trans; [apply step_quiet|apply IH].
Qed.

Lemma configuration_free (w' w : World) :
  quiet w w' →
  pattern (this w') = pattern (this w)
  ∧ timeLimit (this w') = timeLimit (this w).
Proof. intros [Hc _]. by injection Hc as -> _ -> _. Qed.

(** X4: no event changes the configuration: whatever happens on the page,
    the pattern, the type, the time limit and the duration stay as they were
    set. *)
Theorem configuration_is_immutable (evs : list Event) (w : World) :
  pattern (this (run evs w)) = pattern (this w)
  ∧ type (this (run evs w)) = type (this w)
  ∧ timeLimit (this (run evs w)) = timeLimit (this w)
  ∧ duration (this (run evs w)) = duration (this w).
Proof.
  destruct (run_quiet evs w) as [Hc _]. by injection Hc as -> -> -> ->.
Qed.

(** X5: a detector whose pattern is the empty string never reacts, whatever
    keys, buttons, timers and frames it sees: a comparison only follows an
    accepted symbol, and then the serialised buffer is not empty. *)
Theorem empty_pattern_never_reacts (evs : list Event) (w : World) :
  pattern (this w) = "" →
  reactions (host (run evs w)) = reactions (host w).
Proof. intros Hp. by destruct (run_quiet evs w) as [_ ->]. Qed.

Lemma empty_pattern_never_reacts_witness :
  let w := detector "keyboard" "" 0 in
  pattern (this w) = ""
  ∧ reactions (host (run (typeKeys [(100, "a"); (5000, " ")]%Z) w)) = [].
Proof.
  intros w. split; [reflexivity|].
  by rewrite (empty_pattern_never_reacts _ w eq_refl).
Defined.

(** ** The buffer is never trimmed *)

Lemma join_app (sep : string) (l1 l2 : list string) :
  l1 ≠ [] → l2 ≠ [] →
  join sep (l1 ++ l2) = join sep l1 +:+ sep +:+ join sep l2.
Proof.
  intros H1 H2. induction l1 as [|a l1 IH]; [done|].
  destruct l1 as [|b l1].
  - destruct l2; done.
  - change (join sep ((a :: b :: l1) ++ l2))
      with (a +:+ sep +:+ join sep ((b :: l1) ++ l2)).
    rewrite IH by done.
    change (join sep (a :: b :: l1)) with (a +:+ sep +:+ join sep (b :: l1)).
    by rewrite !string_app_assoc.
Qed.

(** A sequence with something in front of it serialises to a longer
    string. *)
Lemma join_suffix_ne (l1 l2 : list string) :
  l1 ≠ [] → l2 ≠ [] → join " " (l1 ++ l2) ≠ join " " l2.
Proof.
  intros H1 H2 Heq. rewrite join_app in Heq by done.
  apply (f_equal String.length) in Heq.
  rewrite !string_length_app in Heq. simpl in Heq. lia.
Qed.

(** X6: once the serialised buffer equals the pattern, no further key can
    match as long as the keys keep coming within the time limit: the buffer
    only grows, and only a pause longer than the limit empties it. *)
Theorem nothing_matches_on_top_of_a_match (w : World) (pre : list string)
    (tl : Z) (S : list (Z * string)) :
  keydown (listeners (host w)) = true →
  pre ≠ [] →
  entries (this w) = Key <$> pre →
  join " " pre = pattern (this w) →
  lastEntryTime (this w) = JsNumber tl →
  Forall (λ tk, tk.2 ≠ "") S →
  paced (timeLimit (this w)) (tl :: S.*1) →
  entries (this (run (typeKeys S) w)) = Key <$> (pre ++ S.*2)
  ∧ reactions (host (run (typeKeys S) w)) = reactions (host w).
Proof.
  intros Hl Hpre Hes Hjoin Hlast Hne Hp.
  destruct (typeKeys_run S w pre tl Hl Hne Hes Hlast Hp) as [He Hre].
  split; [done|]. rewrite Hre, matchTimes_none; [by rewrite app_nil_r|].
  intros P Q -> HP. rewrite <-Hjoin. intros Heq. symmetry in Heq.
  revert Heq. apply join_prefix_ne; [done|]. by destruct P.
Qed.

Lemma nothing_matches_on_top_of_a_match_witness :
  let w := run (typeKeys [(100, "a"); (200, "b")]%Z)
             (detector "keyboard" "a b" 0) in
  reactions (host w) = [200%Z]
  ∧ reactions (host (run (typeKeys [(300, "a"); (400, "b")]%Z) w)) = [200%Z]
  ∧ entries (this (run (typeKeys [(300, "a"); (400, "b")]%Z) w))
    = [Key "a"; Key "b"; Key "a"; Key "b"].
Proof.
  intros w.
  destruct (nothing_matches_on_top_of_a_match w ["a"; "b"] 200
              [(300, "a"); (400, "b")]%Z) as [He Hre].
  - vm_compute; reflexivity.
  - discriminate.
  - vm_compute; reflexivity.
  - vm_compute; reflexivity.
  - vm_compute; reflexivity.
  - repeat (apply Forall_cons; split; [discriminate|]). apply Forall_nil_2.
  - vm_compute. repeat split; discriminate.
  - split; [vm_compute; reflexivity|]. split; [|exact He].
    rewrite Hre. vm_compute; reflexivity.
Defined.

(** X7: the buffer is not trimmed to the pattern.  When keys are already
    buffered and the pattern is then typed in full without a pause longer
    than the time limit, the key that completes it does not trigger the
    reaction. *)
Theorem junk_in_front_blocks_the_match (w : World) (pre : list string)
    (tl : Z) (front : list (Z * string)) (t : Z) (k : string) :
  keydown (listeners (host w)) = true →
  pre ≠ [] →
  entries (this w) = Key <$> pre →
  lastEntryTime (this w) = JsNumber tl →
  Forall (λ tk, tk.2 ≠ "") (front ++ [(t, k)]) →
  paced (timeLimit (this w)) (tl :: (front ++ [(t, k)]).*1) →
  join " " (front ++ [(t, k)]).*2 = pattern (this w) →
  reactions (host (run (typeKeys (front ++ [(t, k)])) w))
  = reactions (host (run (typeKeys front) w)).
Proof.
  intros Hl Hpre Hes Hlast Hne Hp Hjoin.
  destruct (typeKeys_run _ w pre tl Hl Hne Hes Hlast Hp) as [_ Hre].
  destruct (typeKeys_run front w pre tl Hl) as [_ Hre']; [|done..| |].
  { by apply Forall_app in Hne as [? _]. }
  { rewrite fmap_app in Hp.
    by apply (paced_app_l _ (tl :: front.*1) [(t, k)].*1). }
  rewrite Hre, Hre', matchTimes_app. simpl.
  destruct (String.eqb_spec (join " " ((pre ++ front.*2) ++ [k]))
              (pattern (this w))) as [Heq|_]; [|by rewrite !app_nil_r].
  rewrite <-Hjoin, fmap_app, <-app_assoc in Heq. simpl in Heq.
  apply join_suffix_ne in Heq; [done..|]. by destruct (front.*2).
Qed.

Lemma junk_in_front_blocks_the_match_witness :
  let w := run (typeKeys [(100, "x")]%Z) (detector "keyboard" "a b" 0) in
  reactions (host (run (typeKeys [(200, "a"); (300, "b")]%Z) w)) = []
  ∧ entries (this (run (typeKeys [(200, "a"); (300, "b")]%Z) w))
    = [Key "x"; Key "a"; Key "b"].
Proof.
  intros w. split; [|vm_compute; reflexivity].
  pose proof (junk_in_front_blocks_the_match w ["x"] 100 [(200%Z, "a")] 300 "b")
    as H.
  change ([(200%Z, "a")] ++ [(300%Z, "b")])
    with [(200%Z, "a"); (300%Z, "b")] in H.
  rewrite H.
  - vm_compute; reflexivity.
  - vm_compute; reflexivity.
  - discriminate.
  - vm_compute; reflexivity.
  - vm_compute; reflexivity.
  - repeat (apply Forall_cons; split; [discriminate|]). apply Forall_nil_2.
  - vm_compute. repeat split; discriminate.
  - vm_compute; reflexivity.
Defined.

Lemma typeKeys_listeners (S : list (Z * string)) : ∀ w : World,
  listeners (host (run (typeKeys S) w)) = listeners (host w).
Proof.
  induction S as [|[t k] S IH]; intros w; [done|].
  change (run (typeKeys ((t, k) :: S)) w)
    with (run (typeKeys S)
            (step (step w (Clock t)) (Keydown (mkKeyboardEvent (Some k))))).
  rewrite IH. simpl. destruct (keydown _); [|done].
  by rewrite keyboardInit_listeners.
Qed.

(** X8: a pause longer than the time limit wipes whatever was typed before
    it.  After any keys at all, the last of them at time [tn], a sequence
    that starts more than [timeLimit] later, keeps the pace and serialises to
    the pattern triggers the reaction, once, on its last key. *)
Theorem pattern_after_a_pause (w : World) (noise : list (Z * string))
    (tn : Z) (kn : string) (front : list (Z * string)) (t : Z) (k : string) :
  keydown (listeners (host w)) = true →
  kn ≠ "" →
  Forall (λ tk, tk.2 ≠ "") (front ++ [(t, k)]) →
  (timeLimit (this w) < hd t (front ++ [(t, k)]).*1 - tn)%Z →
  paced (timeLimit (this w)) (front ++ [(t, k)]).*1 →
  join " " (front ++ [(t, k)]).*2 = pattern (this w) →
  reactions (host (run (typeKeys ((noise ++ [(tn, kn)]) ++ front ++ [(t, k)])) w))
  = reactions (host (run (typeKeys (noise ++ [(tn, kn)])) w)) ++ [t].
Proof.
  intros Hl Hkn Hne Hgap Hp Hjoin.
  rewrite (typeKeys_app (noise ++ [(tn, kn)])), run_app.
  set (w1 := run (typeKeys (noise ++ [(tn, kn)])) w).
  assert (w1 = press tn kn (run (typeKeys noise) w)) as Hw1.
  { unfold w1. rewrite typeKeys_app, run_app.
    rewrite (run_typeKeys_cons tn kn []); [done|].
    by rewrite typeKeys_listeners. }
  destruct (configuration_free w1 w) as (Hpat & Hlim).
  { apply run_quiet. }
  destruct (press_spec tn kn (run (typeKeys noise) w) Hkn)
    as (_ & Hlast & _). rewrite <-Hw1 in Hlast.
  destruct (typeKeys_match_once w1 front t k) as [_ Hre]; try done.
  - unfold w1. by rewrite typeKeys_listeners.
  - right. exists tn. by rewrite Hlim.
  - by rewrite Hlim.
  - by rewrite Hpat.
Qed.

Lemma pattern_after_a_pause_witness :
  let w := detector "keyboard" "a b" 0 in
  reactions (host (run (typeKeys [(100, "x"); (200, "a")]%Z) w)) = []
  ∧ reactions (host (run (typeKeys
      [(100, "x"); (200, "a"); (1300, "a"); (1400, "b")]%Z) w)) = [1400%Z].
Proof.
  intros w. split; [vm_compute; reflexivity|].
  pose proof (pattern_after_a_pause w [(100%Z, "x")] 200 "a"
                [(1300%Z, "a")] 1400 "b") as H.
  change (([(100%Z, "x")] ++ [(200%Z, "a")])
          ++ [(1300%Z, "a")] ++ [(1400%Z, "b")])
    with [(100%Z, "x"); (200%Z, "a"); (1300%Z, "a"); (1400%Z, "b")] in H.
  rewrite H.
  - vm_compute; reflexivity.
  - vm_compute; reflexivity.
  - discriminate.
  - repeat (apply Forall_cons; split; [discriminate|]). apply Forall_nil_2.
  - vm_compute; reflexivity.
  - vm_compute. repeat split; discriminate.
  - vm_compute; reflexivity.
Defined.

(** ** The gamepad path *)

Lemma buttonPressed_appends (id : nat) (w : World) :
  lastEntryTime (this w) = JsUndefined →
  entries (this (buttonPressed id w)) = entries (this w) ++ [Button id].
Proof.
  intros Hlast. unfold buttonPressed, checkTime; simpl. rewrite Hlast; simpl.
  match goal with |- context [String.eqb ?a ?b] => destruct (String.eqb a b) end;
    done.
Qed.

(** X9: on the gamepad path only the first symbol can find the buffer
    cleared.  After one call of [buttonPressed] the last-entry time is
    [undefined] and stays so, and every later button, whenever it comes, is
    appended to the buffer. *)
Theorem gamepad_buffer_only_grows (id : nat) (l : list (Z * nat)) (w : World) :
  entries (this (pressButtons l (buttonPressed id w)))
  = entries (this (buttonPressed id w)) ++ (Button <$> l.*2)
  ∧ lastEntryTime (this (pressButtons l (buttonPressed id w))) = JsUndefined.
Proof.
  pose proof (buttonPressed_lastEntryTime id w) as Hlast.
  generalize dependent (buttonPressed id w). clear w.
  induction l as [|[t b] l IH]; intros w Hlast; simpl.
  { by rewrite app_nil_r. }
  destruct (IH (pressButton w (t, b))) as [-> ->].
  { apply buttonPressed_lastEntryTime. }
  split; [|done]. unfold pressButton at 1; simpl.
  rewrite buttonPressed_appends by done. simpl. by rewrite <-app_assoc.
Qed.

(** X10: [gamepadConnected] ignores a notification without a gamepad;
    otherwise it records the device index and leaves one more frame request
    behind than there was, also when a request is already pending. *)
Theorem gamepadConnected_effect (pad : Gamepad) (w : World) :
  gamepadConnected (mkGamepadEvent None) w = w
  ∧ gamepads (this (gamepadConnected (mkGamepadEvent (Some pad)) w))
    = <[index pad := true]> (gamepads (this w))
  ∧ frames (host (gamepadConnected (mkGamepadEvent (Some pad)) w))
    = S (frames (host w)).
Proof.
  split; [done|].
  set (w1 := updThis (λ c, set_gamepads (<[index pad:=true]> (gamepads c)) c) w).
  change (gamepadConnected (mkGamepadEvent (Some pad)) w)
    with (readGamepadValues Element w1).
  destruct (readGamepadValues_reschedules w1) as [-> ->]. split; [done|].
  destruct (decide (size (gamepads (this w1)) = 0)) as [Hz|_]; [|simpl; lia].
  apply map_size_empty_inv in Hz. simpl in Hz.
  by apply insert_non_empty in Hz.
Qed.

(** X11: a sampling pass run on the element changes nothing at all when no
    device index is recorded, and otherwise leaves exactly one more frame
    request; it never adds or removes a device index. *)
Theorem pass_reschedules_while_connected (w : World) :
  gamepads (this (readGamepadValues Element w)) = gamepads (this w)
  ∧ (gamepads (this w) = ∅ → readGamepadValues Element w = w)
  ∧ (gamepads (this w) ≠ ∅ →
       frames (host (readGamepadValues Element w)) = S (frames (host w))).
Proof.
  destruct (readGamepadValues_reschedules w) as [Hg Hf].
  split; [done|]. split.
  - intros Hem. unfold readGamepadValues.
    assert (gamepadIndexes w = []) as Hidx.
    { apply length_zero_iff_nil. by rewrite gamepadIndexes_length, Hem. }
    unfold forEach. rewrite Hidx. simpl. by rewrite Hidx.
  - intros Hne. rewrite Hf.
    destruct (decide (size (gamepads (this w)) = 0)) as [Hz|_]; [|lia].
    by apply map_size_empty_inv in Hz.
Qed.

Lemma pass_reschedules_while_connected_witness :
  let w := detector "gamepad" "starpower" 0 in
  let w' := updThis (set_gamepads {[0 := true]}) w in
  gamepads (this w) = ∅
  ∧ readGamepadValues Element w = w
  ∧ gamepads (this w') ≠ ∅
  ∧ frames (host (readGamepadValues Element w')) = 1.
Proof.
  intros w w'.
  destruct (pass_reschedules_while_connected w) as (_ & Hidle & _).
  destruct (pass_reschedules_while_connected w') as (_ & _ & Hloop).
  split; [reflexivity|]. split; [by apply Hidle|].
  assert (gamepads (this w') ≠ ∅) as Hne by (vm_compute; discriminate).
  split; [exact Hne|]. by rewrite Hloop.
Defined.

(** X12: an animation frame runs every pending callback without a receiver:
    each one throws, none samples a device or touches the element, and the
    queue is left empty. *)
Theorem animation_frame_only_throws (w : World) :
  this (step w AnimationFrame) = this w
  ∧ frames (host (step w AnimationFrame)) = 0
  ∧ console (host (step w AnimationFrame)) = console (host w)
  ∧ reactions (host (step w AnimationFrame)) = reactions (host w)
  ∧ uncaught (host (step w AnimationFrame))
    = uncaught (host w) + frames (host w).
Proof.
  destruct (animationFrame_faults w) as (Ht & Hf & Hc & Hu).
  split; [done|]. split; [done|]. split; [done|]. split; [|done].
  assert (∀ n w0, reactions (host (runFrames n w0)) = reactions (host w0)) as H.
  { induction n as [|n IH]; intros w0; simpl; [done|]. by rewrite IH. }
  simpl. by rewrite H.
Qed.

(** X13: the snapshot is read at the position of a key in the list of keys,
    not at the device index.  With one device recorded, a pass looks at slot
    0 only: when that slot is empty nothing is sampled, whatever the
    recorded device, sitting in another slot, has pressed. *)
Theorem lone_device_outside_slot0_not_sampled
    (snapshot : list (option Gamepad)) (w : World) :
  size (gamepads (this w)) = 1 →
  snapshot !! 0 = None ∨ snapshot !! 0 = Some None →
  pass snapshot w
  = requestAnimationFrame (updHost (set_getGamepads snapshot) w).
Proof.
  intros Hsize Hslot. unfold pass, readGamepadValues.
  set (w0 := updHost (set_getGamepads snapshot) w).
  assert (length (gamepadIndexes w0) = 1) as Hlen
    by (by rewrite gamepadIndexes_length).
  destruct (gamepadIndexes w0) as [|item [|? ?]] eqn:Hidx; try done.
  assert (sampleGamepad item 0 w0 = w0) as Hbody.
  { unfold sampleGamepad. destruct (negb _); [done|].
    unfold connectedGamepads; simpl. by destruct Hslot as [-> | ->]. }
  unfold forEach; simpl. rewrite Hbody, Hidx. done.
Qed.

Lemma lone_device_outside_slot0_not_sampled_witness :
  let snapshot := [None; Some (padWith 1 10 [7])] in
  let w := run [Pads snapshot; connects (padWith 1 10 [7])]
             (detector "gamepad" "starpower" 0) in
  gamepads (this w) !! 1 = Some true
  ∧ console (host w) = []
  ∧ console (host (pass snapshot w)) = []
  ∧ entries (this (pass snapshot w)) = [].
Proof.
  intros snapshot w.
  rewrite (lone_device_outside_slot0_not_sampled snapshot w).
  - vm_compute. done.
  - vm_compute; reflexivity.
  - by right.
Defined.

Lemma sampleButton_console (p : bool) (i : nat) (w : World) :
  console (host (sampleButton p i w))
  = console (host w) ++ (if p && negb (held i w) then [i] else []).
Proof.
  unfold sampleButton, held. destruct p; simpl; [|by rewrite app_nil_r].
  destruct (truthyFlag (buttonState (this w) !! i)); simpl;
    [by rewrite app_nil_r|].
  by destruct (buttonPressed_frame i
    (updThis (λ c, set_buttonState (<[i:=true]> (buttonState c)) c) w))
    as (_ & _ & _ & ->).
Qed.

Lemma rising_ext (f g : nat → bool) (bs : list bool) : ∀ i : nat,
  (∀ b, i ≤ b → f b = g b) → rising f i bs = rising g i bs.
Proof.
  induction bs as [|p bs IH]; intros i Hfg; simpl; [done|].
  rewrite (Hfg i) by lia. f_equal. apply IH. intros b Hb. apply Hfg. lia.
Qed.

Lemma sampleButtons_console (bs : list bool) : ∀ (i : nat) (w : World),
  console (host (forEachFrom sampleButton i bs w))
  = console (host w) ++ rising (λ b, held b w) i bs.
Proof.
  induction bs as [|p bs IH]; intros i w; simpl; [by rewrite app_nil_r|].
  rewrite IH, sampleButton_console, <-app_assoc. do 2 f_equal.
  apply rising_ext. intros b Hb.
  by destruct (sampleButton_other p i b w ltac:(lia)) as [-> _].
Qed.

(** X14: one pass over a device emits a symbol for each rising edge (a
    button that is down and was not flagged) and for nothing else, in
    ascending order of the button index. *)
Theorem pass_emits_rising_edges_in_order (snapshot : list (option Gamepad))
    (pad : Gamepad) (w : World) :
  size (gamepads (this w)) = 1 →
  snapshot !! 0 = Some (Some pad) →
  console (host (pass snapshot w))
  = console (host w) ++ rising (λ b, held b w) 0 (buttons pad).
Proof.
  intros Hsize Hpad. rewrite (pass_single snapshot pad) by done. simpl.
  by rewrite sampleButtons_console.
Qed.

Lemma pass_emits_rising_edges_in_order_witness :
  let w := run [Pads [Some (padWith 0 10 [3])]; connects (padWith 0 10 [3])]
             (detector "gamepad" "starpower" 0) in
  let snapshot := [Some (padWith 0 10 [7; 3; 1])] in
  console (host w) = [3]
  ∧ rising (λ b, held b w) 0 (buttons (padWith 0 10 [7; 3; 1])) = [1; 7]
  ∧ console (host (pass snapshot w)) = [3; 1; 7].
Proof.
  intros w snapshot.
  assert (rising (λ b, held b w) 0 (buttons (padWith 0 10 [7; 3; 1])) = [1; 7])
    as Hr by (vm_compute; reflexivity).
  split; [vm_compute; reflexivity|]. split; [exact Hr|].
  rewrite (pass_emits_rising_edges_in_order snapshot (padWith 0 10 [7; 3; 1]) w).
  - rewrite Hr. vm_compute; reflexivity.
  - vm_compute; reflexivity.
  - reflexivity.
Defined.

(** ** The confetti timer *)

Lemma destroy_keeps (w : World) :
  this (destroy w) = this w
  ∧ now (host (destroy w)) = now (host w)
  ∧ intervals (host (destroy w)) = intervals (host w).
Proof. unfold destroy. by destruct (String.eqb _ _). Qed.

Lemma interval_over (w : World) (handle : nat) (d end_ : Z) :
  intervals (host w) !! handle = Some (d, end_) →
  (end_ ≤ now (host w))%Z →
  this (step w (Interval handle)) = this w
  ∧ now (host (step w (Interval handle))) = now (host w)
  ∧ intervals (host (step w (Interval handle)))
    = delete (timer (this w)) (intervals (host w)).
Proof.
  intros Hiv Hle. simpl. rewrite Hiv, fireConfetti_over by done.
  by destruct (destroy_keeps (clearInterval (timer (this w)) w))
    as (-> & -> & ->).
Qed.

(** X15: the callback of a finished animation clears the timer whose handle
    is in [this.timer], not its own.  If that is its own handle the timer is
    gone after one call.  If a later match has overwritten [this.timer], the
    callback clears that later timer instead and its own timer stays live,
    however often it runs. *)
Theorem finished_timer_clears_this_timer (w : World) (handle : nat)
    (d end_ : Z) (n : nat) :
  intervals (host w) !! handle = Some (d, end_) →
  (end_ ≤ now (host w))%Z →
  (timer (this w) = handle →
     intervals (host (step w (Interval handle))) !! handle = None)
  ∧ (timer (this w) ≠ handle →
     intervals (host (run (replicate n (Interval handle)) w)) !! handle
     = Some (d, end_)
     ∧ intervals (host (run (replicate (S n) (Interval handle)) w))
       !! timer (this w) = None).
Proof.
  intros Hiv Hle. split.
  - intros Htimer.
    destruct (interval_over w handle d end_ Hiv Hle) as (_ & _ & ->).
    rewrite Htimer. apply lookup_delete_eq.
  - intros Hne.
    assert (∀ m w', this w' = this w → now (host w') = now (host w) →
              intervals (host w') !! handle = Some (d, end_) →
              let w'' := run (replicate m (Interval handle)) w' in
              this w'' = this w ∧ now (host w'') = now (host w)
              ∧ intervals (host w'') !! handle = Some (d, end_)) as Hinv.
    { induction m as [|m IH]; intros w' Ht Hn Hl; [done|].
      change (run (replicate (S m) (Interval handle)) w')
        with (run (replicate m (Interval handle)) (step w' (Interval handle))).
      destruct (interval_over w' handle d end_ Hl) as (Ht' & Hn' & Hi');
        [by rewrite Hn|].
      apply IH; [by rewrite Ht'|by rewrite Hn'|].
      rewrite Hi', Ht, lookup_delete_ne; done. }
    destruct (Hinv n w eq_refl eq_refl Hiv) as (Ht & Hn & Hl).
    split; [exact Hl|].
    replace (S n) with (n + 1) by lia.
    rewrite replicate_add, run_app.
    change (run (replicate 1 (Interval handle)) ?x)
      with (step x (Interval handle)).
    destruct (interval_over _ handle d end_ Hl) as (_ & _ & ->);
      [by rewrite Hn|].
    rewrite Ht. apply lookup_delete_eq.
Qed.

Lemma finished_timer_clears_this_timer_witness :
  let w1 := run (typeKeys [(100, "a"); (200, "b")]%Z ++ [Clock 10200])
              (detector "keyboard" "a b" 0) in
  let w2 := run (typeKeys [(100, "a"); (200, "b"); (6000, "a"); (6100, "b")]%Z
                 ++ [Clock 10200])
              (detector "keyboard" "a b" 0) in
  (timer (this w1) = 1
   ∧ intervals (host (step w1 (Interval 1))) !! 1 = None)
  ∧ (timer (this w2) = 2
     ∧ intervals (host (run (replicate 5 (Interval 1)) w2)) !! 1
       = Some (10000, 10200)%Z
     ∧ intervals (host (run (replicate 6 (Interval 1)) w2)) !! 2 = None).
Proof.
  intros w1 w2.
  destruct (finished_timer_clears_this_timer w1 1 10000 10200 0)
    as [Hown _]; [vm_compute; reflexivity|vm_compute; discriminate|].
  destruct (finished_timer_clears_this_timer w2 1 10000 10200 5)
    as [_ Hother]; [vm_compute; reflexivity|vm_compute; discriminate|].
  assert (timer (this w1) = 1) as Ht1 by (vm_compute; reflexivity).
  assert (timer (this w2) = 2) as Ht2 by (vm_compute; reflexivity).
  split.
  - split; [exact Ht1|]. by apply Hown.
  - split; [exact Ht2|].
    destruct Hother as [Hlive Hgone]; [rewrite Ht2; discriminate|].
    split; [exact Hlive|]. by rewrite Ht2 in Hgone.
Defined.

(** ** Matching on the gamepad path *)

Lemma toString_Button (l : list nat) :
  toString <$> (Button <$> l) = pretty <$> l.
Proof.
  induction l as [|x l IH]; [done|]. rewrite !fmap_cons. simpl. by f_equal.
Qed.

Lemma buttonPressed_spec (id : nat) (w : World) :
  let cleared :=
    js_gt (js_sub (Finite (now (host w))) (toNumber (lastEntryTime (this w))))
          (Finite (timeLimit (this w))) in
  let es := (if cleared then [] else entries (this w)) ++ [Button id] in
  entries (this (buttonPressed id w)) = es
  ∧ pattern (this (buttonPressed id w)) = pattern (this w)
  ∧ reactions (host (buttonPressed id w))
    = reactions (host w)
      ++ (if String.eqb (join " " (toString <$> es)) (pattern (this w))
          then [now (host w)] else []).
Proof.
  unfold buttonPressed, checkTime, currentCode; simpl.
  destruct (js_gt _ _); simpl;
    match goal with |- context [String.eqb ?a ?b] => destruct (String.eqb a b) end;
    simpl; by rewrite ?app_nil_r.
Qed.

Lemma pressButtons_run (l : list (Z * nat)) : ∀ (w : World) (pre : list nat),
  entries (this w) = Button <$> pre →
  lastEntryTime (this w) = JsUndefined →
  entries (this (pressButtons l w)) = Button <$> (pre ++ l.*2)
  ∧ reactions (host (pressButtons l w))
    = reactions (host w)
      ++ matchTimes (pattern (this w)) (pretty <$> pre)
           (prod_map id pretty <$> l).
Proof.
  induction l as [|[t b] l IH]; intros w pre Hes Hlast.
  { simpl. by rewrite !app_nil_r. }
  change (pressButtons ((t, b) :: l) w)
    with (pressButtons l (pressButton w (t, b))).
  destruct (buttonPressed_spec b (updHost (set_now t) w)) as (He & Hpat & Hre).
  change (buttonPressed b (updHost (set_now t) w))
    with (pressButton w (t, b)) in He, Hpat, Hre.
  simpl in He, Hpat, Hre. rewrite Hlast in He, Hre; simpl in He, Hre.
  rewrite Hes in He, Hre.
  rewrite fmap_app, toString_Button in Hre; simpl in Hre.
  destruct (IH (pressButton w (t, b)) (pre ++ [b])) as [IHe IHr].
  - by rewrite He, fmap_app.
  - apply buttonPressed_lastEntryTime.
  - rewrite IHe, IHr, Hre, Hpat. split.
    + by rewrite <-app_assoc.
    + by rewrite fmap_app, <-app_assoc.
Qed.

(** X16: on the gamepad path, buttons reported to [buttonPressed] from an
    empty buffer whose serialisation equals the pattern trigger the reaction
    exactly once, by the last button, and no earlier one triggers it; the
    times of the buttons play no part. *)
Theorem gamepad_match_exactly_once (w : World) (front : list (Z * nat))
    (t : Z) (b : nat) :
  entries (this w) = [] →
  join " " (pretty <$> (front ++ [(t, b)]).*2) = pattern (this w) →
  (∀ P Q, front = P ++ Q →
     reactions (host (pressButtons P w)) = reactions (host w))
  ∧ reactions (host (pressButtons (front ++ [(t, b)]) w))
    = reactions (host w) ++ [t].
Proof.
  intros Hempty Hjoin.
  assert (∀ S, reactions (host (pressButtons S w))
               = reactions (host w)
                 ++ matchTimes (pattern (this w)) [] (prod_map id pretty <$> S))
    as Hrun.
  { intros [|[t1 b1] S]; [simpl; by rewrite app_nil_r|].
    change (pressButtons ((t1, b1) :: S) w)
      with (pressButtons S (pressButton w (t1, b1))).
    destruct (buttonPressed_spec b1 (updHost (set_now t1) w))
      as (He & Hpat & Hre).
    change (buttonPressed b1 (updHost (set_now t1) w))
      with (pressButton w (t1, b1)) in He, Hpat, Hre.
    simpl in He, Hpat, Hre. rewrite Hempty in He, Hre.
    assert (entries (this (pressButton w (t1, b1))) = Button <$> [b1]
            ∧ reactions (host (pressButton w (t1, b1)))
              = reactions (host w)
                ++ (if String.eqb (join " " [pretty b1]) (pattern (this w))
                    then [t1] else [])) as [He' Hre'].
    { destruct (js_gt _ _); simpl in He, Hre; by split. }
    destruct (pressButtons_run S (pressButton w (t1, b1)) [b1] He') as [_ ->].
    { apply buttonPressed_lastEntryTime. }
    rewrite Hre', Hpat. rewrite fmap_cons. simpl. by rewrite <-app_assoc. }
  assert (∀ P Q, front = P ++ Q →
            matchTimes (pattern (this w)) [] (prod_map id pretty <$> P) = [])
    as Hquiet.
  { intros P Q ->. apply matchTimes_none. intros P' Q' HP' Hne. simpl.
    apply (f_equal (fmap snd)) in HP'.
    rewrite <-list_fmap_compose, fmap_app in HP'.
    assert (pretty <$> P.*2 = P'.*2 ++ Q'.*2) as HP.
    { rewrite <-HP'. rewrite <-list_fmap_compose. by apply list_fmap_ext. }
    rewrite <-Hjoin, <-app_assoc, !fmap_app, HP, <-app_assoc.
    apply join_prefix_ne; [by destruct P'|].
    intros Heq. apply (f_equal length) in Heq.
    rewrite !length_app in Heq. simpl in Heq. lia. }
  split.
  - intros P Q HPQ. rewrite Hrun, (Hquiet P Q HPQ). by rewrite app_nil_r.
  - rewrite Hrun, fmap_app, matchTimes_app.
    rewrite (Hquiet front []) by (by rewrite app_nil_r). simpl.
    rewrite <-Hjoin.
    assert ((prod_map id pretty <$> front).*2 ++ [pretty b]
            = pretty <$> (front ++ [(t, b)]).*2) as ->.
    { rewrite !fmap_app. simpl. f_equal.
      rewrite <-!list_fmap_compose. by apply list_fmap_ext. }
    by rewrite String.eqb_refl.
Qed.

Lemma gamepad_match_exactly_once_witness :
  let w := detector "gamepad" "starpower" 0 in
  let front : list (Z * nat) :=
    [(0%Z, 7); (5000%Z, 1); (5001%Z, 7); (90000%Z, 0); (90001%Z, 7);
     (90002%Z, 2); (90003%Z, 7); (200000%Z, 3)] in
  reactions (host (pressButtons front w)) = []
  ∧ reactions (host (pressButtons (front ++ [(300000%Z, 6)]) w)) = [300000%Z].
Proof.
  intros w front.
  destruct (gamepad_match_exactly_once w front 300000 6) as [Hquiet Hfire].
  - reflexivity.
  - vm_compute; reflexivity.
  - split; [|exact Hfire]. apply (Hquiet front []). by rewrite app_nil_r.
Defined.

(** ** Two devices *)

Lemma pass_pair (snapshot : list (option Gamepad)) (pad1 pad2 : Gamepad)
    (w : World) :
  size (gamepads (this w)) = 2 →
  snapshot !! 0 = Some (Some pad1) →
  snapshot !! 1 = Some (Some pad2) →
  pass snapshot w
  = requestAnimationFrame
      (forEachFrom sampleButton 0 (buttons pad2)
         (forEachFrom sampleButton 0 (buttons pad1)
            (updHost (set_getGamepads snapshot) w))).
Proof.
  intros Hsize Hpad1 Hpad2. unfold pass, readGamepadValues.
  set (w0 := updHost (set_getGamepads snapshot) w).
  assert (length (gamepadIndexes w0) = 2) as Hlen
    by (by rewrite gamepadIndexes_length).
  pose proof (gamepadIndexes_truthy w0) as Htr.
  destruct (gamepadIndexes w0) as [|item1 [|item2 [|? ?]]] eqn:Hidx; try done.
  apply Forall_cons in Htr as [Hitem1 Htr].
  apply Forall_cons in Htr as [Hitem2 _].
  set (w1 := forEachFrom sampleButton 0 (buttons pad1) w0).
  set (w2 := forEachFrom sampleButton 0 (buttons pad2) w1).
  assert (sampleGamepad item1 0 w0 = w1) as Hbody1.
  { unfold sampleGamepad. rewrite Hitem1; simpl.
    unfold connectedGamepads; simpl. by rewrite Hpad1. }
  assert (sampleGamepad item2 1 w1 = w2) as Hbody2.
  { unfold sampleGamepad. rewrite Hitem2; simpl.
    unfold connectedGamepads, w1.
    destruct (sampleButtons_frame (buttons pad1) 0 w0) as [_ ->]. simpl.
    by rewrite Hpad2. }
  unfold forEach; simpl. rewrite Hbody1, Hbody2.
  assert (length (gamepadIndexes w2) = 2) as Hlen2.
  { rewrite gamepadIndexes_length. unfold w2, w1.
    destruct (sampleButtons_frame (buttons pad2) 0
                (forEachFrom sampleButton 0 (buttons pad1) w0)) as [-> _].
    by destruct (sampleButtons_frame (buttons pad1) 0 w0) as [-> _]. }
  by rewrite Hlen2.
Qed.

(** X17: with two devices recorded, both scans of a pass go through the one
    flag of a button index.  After the pass the flag tells whether the
    button is down on the second device only; the first device's button
    emits a symbol if it is down and was not flagged, the second one's if
    it is down and the first one's is up. *)
Theorem two_devices_share_edge_state (snapshot : list (option Gamepad))
    (pad1 pad2 : Gamepad) (b : nat) (p1 p2 : bool) (w : World) :
  size (gamepads (this w)) = 2 →
  snapshot !! 0 = Some (Some pad1) →
  snapshot !! 1 = Some (Some pad2) →
  buttons pad1 !! b = Some p1 →
  buttons pad2 !! b = Some p2 →
  held b (pass snapshot w) = p2
  ∧ presses b (pass snapshot w)
    = presses b w + (if p1 && negb (held b w) then 1 else 0)
      + (if p2 && negb p1 then 1 else 0).
Proof.
  intros Hsize Hpad1 Hpad2 Hp1 Hp2.
  rewrite (pass_pair snapshot pad1 pad2) by done.
  set (w0 := updHost (set_getGamepads snapshot) w).
  destruct (sampleButtons_at (buttons pad1) b p1 0 w0) as [Hh1 Hc1];
    [lia|by rewrite Nat.sub_0_r|].
  destruct (sampleButtons_at (buttons pad2) b p2 0
              (forEachFrom sampleButton 0 (buttons pad1) w0)) as [Hh2 Hc2];
    [lia|by rewrite Nat.sub_0_r|].
  split; [exact Hh2|].
  change (presses b (requestAnimationFrame ?x)) with (presses b x).
  rewrite Hc2, Hc1, Hh1. done.
Qed.

Lemma two_devices_share_edge_state_witness :
  let snapshot := [Some (padWith 0 2 [0]); Some (padWith 1 2 [])] in
  let w := run [Pads snapshot; connects (padWith 0 2 [0]);
                connects (padWith 1 2 [])]
             (detector "gamepad" "starpower" 0) in
  held 0 (pass snapshot w) = false
  ∧ presses 0 (pass snapshot w) = presses 0 w + 1.
Proof.
  intros snapshot w.
  destruct (two_devices_share_edge_state snapshot
              (padWith 0 2 [0]) (padWith 1 2 []) 0 true false w)
    as [Hh Hp]; try (vm_compute; reflexivity).
  split; [exact Hh|]. rewrite Hp.
  assert (held 0 w = false) as -> by (vm_compute; reflexivity). done.
Defined.
